(** * The batched uncertainty pipeline: [main_pipeline.py] and [models/generator.py]

    A shallow embedding of the orchestrator ([batchify], [main]) and of the
    generation wrapper ([run_generation]).  The dataset loaders, the
    tokenizer, the language model, torch and the [analysis.*] scorers live
    outside the two source files; they enter as one record of collaborators
    that every definition takes as a parameter.

    Python exceptions are values of [exn]; a pure computation that may raise
    has type [result A]; the orchestrator runs in a state-and-exception monad
    [M] whose state holds the filesystem, the handle of the open file, the
    locals of [main], an event trace of the external calls and a log of the
    generation outputs that are alive.  Console output is not modelled, and
    file operations do not fail. *)

From Stdlib Require Import ZArith QArith Qminmax String List Lia.
From stdpp Require Import gmap strings list fin_maps.
Import ListNotations.
Close Scope Q_scope.
Open Scope Z_scope.

(** ** Exceptions and fallible pure code *)

Inductive exn : Type :=
| ValueError (msg : string)
| KeyError (key : string)
| IndexError
| RuntimeError (msg : string).

Definition result (A : Type) : Type := (exn + A)%type.

Definition bindR {A B} (r : result A) (k : A -> result B) : result B :=
  match r with
  | inl e => inl e
  | inr a => k a
  end.

Notation "x <-? r ; k" := (bindR r (fun x => k))
  (at level 20, r at level 100, k at level 200, only parsing).

(** ** Python built-ins used by the two files *)

Module Py.

(** [len(range(start, stop, step))], as CPython computes it. *)
Definition range_len (start stop step : Z) : nat :=
  if 0 <? step then
    (if start <? stop then Z.to_nat ((stop - start - 1) / step + 1) else O)
  else
    (if stop <? start then Z.to_nat ((start - stop - 1) / (- step) + 1) else O).

(** [range(start, stop, step)]: a zero step raises [ValueError]; the k-th
    item is [start + k * step]. *)
Definition range (start stop step : Z) : result (list Z) :=
  if step =? 0 then inl (ValueError "range() arg 3 must not be zero")
  else inr (map (fun k => start + Z.of_nat k * step)
                (seq 0 (range_len start stop step))).

(** Normalisation of one bound of a slice [l[i:j]]: a negative bound counts
    from the end, and both bounds are clamped to [0..len]. *)
Definition clamp_index (len i : Z) : Z :=
  if i <? 0 then Z.max (i + len) 0 else Z.min i len.

(** [l[i:j]] *)
Definition slice {A} (l : list A) (i j : Z) : list A :=
  let n := Z.of_nat (length l) in
  let lo := clamp_index n i in
  let hi := clamp_index n j in
  take (Z.to_nat (hi - lo)) (drop (Z.to_nat lo) l).

(** [l[i:]] *)
Definition slice_from {A} (l : list A) (i : Z) : list A :=
  slice l i (Z.of_nat (length l)).

(** [l[i]] for an index produced by [enumerate]; out of range raises. *)
Definition index {A} (l : list A) (i : nat) : result A :=
  match l !! i with
  | Some x => inr x
  | None => inl IndexError
  end.

Fixpoint enumerate_from {A} (k : nat) (l : list A) : list (nat * A) :=
  match l with
  | [] => []
  | x :: l' => (k, x) :: enumerate_from (S k) l'
  end.

(** [enumerate(l)] *)
Definition enumerate {A} (l : list A) : list (nat * A) := enumerate_from 0 l.

(** [zip(l1, l2)] stops at the shorter argument. *)
Definition zip {A B} (l1 : list A) (l2 : list B) : list (A * B) := combine l1 l2.

End Py.

(** ** Data model *)

(** A float tensor: its shape and its elements in row-major order.  Elements
    are rationals standing for floats; the orchestrator only moves them
    around, and rounding is not modelled. *)
Record tensor : Type := Tensor { shape : list nat; data : list Q }.

Definition tensor_map (f : Q -> Q) (t : tensor) : tensor :=
  {| shape := shape t; data := map f (data t) |}.

(** Dynamically typed scalars that end up in a CSV cell. *)
Inductive pyval : Type :=
| PyNone
| PyBool (b : bool)
| PyFloat (x : Q)
| PyStr (s : string).

(** A [dict] with string keys, in insertion order. *)
Definition py_dict : Type := list (string * pyval).

Fixpoint dict_getitem (d : py_dict) (k : string) : result pyval :=
  match d with
  | [] => inl (KeyError k)
  | (k', v) :: d' => if String.eqb k' k then inr v else dict_getitem d' k
  end.

(** One QA unit.  The loaders promise the [question] key (a string); the
    other keys are the optional ones [run_generation] looks up with [get]. *)
Record sample : Type := Sample {
  question : string;
  prompt : option string;
  reference_answers : list string;
  sample_token_log_likelihoods : option tensor;
  sample_entropy_per_token : option tensor
}.

(** One element of [outputs.attentions]: a tensor, or a tuple of tensors. *)
Inductive attention : Type :=
| AttnTensor (t : tensor)
| AttnTuple (layers : list tensor).

(** What [model.generate(..., return_dict_in_generate=True)] returns.
    [g_scores] is read only under [return_logits]; [g_attentions = None]
    stands for an object without an [attentions] attribute. *)
Record generate_output : Type := GenerateOutput {
  g_sequences : list (list Z);
  g_scores : list tensor;
  g_attentions : option (list attention)
}.

(** The dict [run_generation] builds per sample; an optional key is [None]
    when it was not set. *)
Record item : Type := Item {
  input_ids : list Z;
  generated_ids : list Z;
  generated_text : string;
  scores : option (list tensor);
  log_attentions : option (list tensor);
  uncertainty_scores : option py_dict
}.

(** [likelihood_dict] and [model_output] of [run_generation]. *)
Record likelihood_dict : Type := LikelihoodDict {
  ld_token_log_likelihoods : tensor;
  ld_entropy_per_token : tensor;
  ld_logits : option (list tensor)
}.

Record model_output : Type := ModelOutput {
  mo_generated_text : string;
  mo_input_text : string;
  mo_log_attentions : option (list tensor)
}.

(** The per-token trace [analysis.likelihoods.compute_likelihoods] returns. *)
Record likelihoods : Type := Likelihoods {
  token_log_likelihoods : list Q;
  entropy_per_token : list Q
}.

(** ** Collaborators outside the two source files *)

Record collaborators : Type := Collaborators {
  DATASET_PATH : string;
  load_sampleqa_dataset : list sample;
  load_sciq_dataset : string -> string -> list sample;
  load_coqa_dataset : list sample;
  load_triviaqa_dataset : string -> list sample;
  (** [tokenizer(prompts, return_tensors="pt", padding=True)["input_ids"]] *)
  tokenizer : string -> list string -> list (list Z);
  (** [model.generate] on the encoded batch, with [max_length],
      [output_scores] and [output_attentions]; greedy decoding *)
  model_generate : string -> list (list Z) -> Z -> bool -> bool -> result generate_output;
  (** [tokenizer.batch_decode(ids, skip_special_tokens=True)] *)
  batch_decode : string -> list (list Z) -> list string;
  torch_log : Q -> Q;
  compute_likelihoods : item -> result likelihoods;
  (** the call of [main]: [(likelihoods, method=...)] *)
  compute_uncertainty_scores : likelihoods -> string -> result py_dict;
  (** the call of [run_generation]: [(likelihood_dict, model_output, methods=...)] *)
  compute_uncertainty_scores_methods :
    likelihood_dict -> model_output -> list string -> result py_dict;
  evaluate_response : sample -> item -> result pyval;
  compute_similarity : item -> string -> result pyval
}.

(** [[f(x) for x in l]] where [f] may raise: the first exception wins. *)
Fixpoint mapR {A B} (f : A -> result B) (l : list A) : result (list B) :=
  match l with
  | [] => inr []
  | x :: l' => y <-? f x ; ys <-? mapR f l' ; inr (y :: ys)
  end.

(** ** [models/generator.py] *)

Section Generator.

Variable C : collaborators.

(** [sample.get("prompt", f"Question: {sample['question']} Answer:")] *)
Definition prompt_of (smp : sample) : string :=
  match prompt smp with
  | Some p => p
  | None => "Question: " +:+ question smp +:+ " Answer:"
  end.

(** [encoded["input_ids"].shape[1]]: the common row length of the padded
    batch. *)
Definition padded_length (encoded : list (list Z)) : Z :=
  Z.of_nat (length (hd [] encoded)).

Definition clamp_min : Q := 1 # 10000000000.

(** [torch.log(1 + torch.clamp(t, min=1e-10))], element by element. *)
Definition stabilize (t : tensor) : tensor :=
  tensor_map (fun w => torch_log C (1 + Qmax w clamp_min)%Q) t.

(** The body of [for attention in attentions]: a tensor is transformed
    whole, of anything else only element [0] is. *)
Definition log_attention_of (a : attention) : result tensor :=
  match a with
  | AttnTensor t => inr (stabilize t)
  | AttnTuple layers => t <-? Py.index layers 0 ; inr (stabilize t)
  end.

(** [torch.tensor([])] *)
Definition empty_tensor : tensor := {| shape := [0%nat]; data := [] |}.

(** The body of [for i, sample in enumerate(batch)]. *)
Definition build_item (return_logits return_attentions : bool)
    (uncertainty_methods : option (list string))
    (encoded : list (list Z)) (outputs : generate_output)
    (decoded prompts : list string) (i : nat) (smp : sample) : result item :=
  ids <-? Py.index encoded i ;
  gids <-? Py.index (g_sequences outputs) i ;
  text <-? Py.index decoded i ;
  let sc := if return_logits then Some (g_scores outputs) else None in
  la <-? (if return_attentions then
            match g_attentions outputs with
            | Some attentions => ts <-? mapR log_attention_of attentions ; inr (Some ts)
            | None => inr None
            end
          else inr None) ;
  let likelihood :=
    {| ld_token_log_likelihoods := default empty_tensor (sample_token_log_likelihoods smp);
       ld_entropy_per_token := default empty_tensor (sample_entropy_per_token smp);
       ld_logits := if return_logits then Some (g_scores outputs) else None |} in
  input_text <-? Py.index prompts i ;
  let mo :=
    {| mo_generated_text := text; mo_input_text := input_text; mo_log_attentions := la |} in
  let us :=
    match uncertainty_methods with
    | Some (m :: ms) =>
        match compute_uncertainty_scores_methods C likelihood mo (m :: ms) with
        | inr sc' => Some sc'
        | inl _ => Some []
        end
    | _ => None
    end in
  inr {| input_ids := ids; generated_ids := gids; generated_text := text;
         scores := sc; log_attentions := la; uncertainty_scores := us |}.

(** [run_generation].  The model and tokenizer caches of
    [load_model_and_tokenizer] only avoid reloading; the collaborators are
    addressed by [model_name] directly. *)
Definition run_generation (batch : list sample) (model_name : string)
    (return_logits return_attentions : bool)
    (uncertainty_methods : option (list string)) : result (list item) :=
  let prompts := map prompt_of batch in
  let encoded := tokenizer C model_name prompts in
  let L := padded_length encoded in
  outputs <-? model_generate C model_name encoded (L + 64) return_logits return_attentions ;
  let generated := g_sequences outputs in
  let decoded := batch_decode C model_name (map (fun row => Py.slice_from row L) generated) in
  mapR (fun '(i, smp) =>
          build_item return_logits return_attentions uncertainty_methods
                     encoded outputs decoded prompts i smp)
       (Py.enumerate batch).

End Generator.

(** ** [main_pipeline.py]: data *)

(** The parsed command line. *)
Record args : Type := Args {
  model : string;
  uncertainty_method : string;
  similarity_method : string;
  sbert_model : string;
  batch_size : Z;
  dataset : string
}.

(** The dict [row] of [main], under the keys of the source. *)
Module RowDict.
Record t : Type := Make {
  id : Z;
  question : string;
  generated_answer : string;
  uncertainty : pyval;
  correct : pyval;
  similarity_score : pyval
}.

(** [row.keys()] *)
Definition keys : list string :=
  ["id"; "question"; "generated_answer"; "uncertainty"; "correct"; "similarity_score"]%string.
End RowDict.

(** One record of the CSV destination. *)
Inductive csv_record : Type :=
| CsvHeader (fieldnames : list string)
| CsvRow (r : RowDict.t).

(** Identity of one dict built by [run_generation] (an allocation number). *)
Definition oid : Type := nat.

(** The calls that leave the orchestrator.  A generation call is recorded
    with the generation outputs that are alive when it is issued. *)
Inductive event : Type :=
| EvGenerate (batch : list sample) (return_attentions : bool) (live_at_call : list oid)
| EvOpen (path : string)
| EvWrite (rec : csv_record)
| EvClose (path : string)
| EvEmptyCache.

(** The state the orchestrator runs in: the filesystem, the file opened by
    the [with] statement and its unflushed buffer, the trace of external
    calls, the instrumentation of live generation outputs, and the locals of
    [main]. *)
Record state : Type := State {
  fs : gmap string (list csv_record);
  open_file : option (string * list csv_record);
  trace : list event;
  live_log : list (list oid);
  next_oid : oid;
  results : list RowDict.t;
  header_written : bool;
  outputs_ref : option (list oid);
  output_ref : option oid
}.

(** ** The state-and-exception monad *)

Definition M (A : Type) : Type := state -> result A * state.

Definition ret {A} (a : A) : M A := fun s => (inr a, s).

Definition raise {A} (e : exn) : M A := fun s => (inl e, s).

Definition bind {A B} (m : M A) (k : A -> M B) : M B :=
  fun s =>
    match m s with
    | (inl e, s') => (inl e, s')
    | (inr a, s') => k a s'
    end.

Definition lift {A} (r : result A) : M A := fun s => (r, s).

Definition gets {A} (f : state -> A) : M A := fun s => (inr (f s), s).

Definition modify (f : state -> state) : M unit := fun s => (inr tt, f s).

Notation "x <- m ; k" := (bind m (fun x => k))
  (at level 20, m at level 100, k at level 200, only parsing).

(** [for x in l: body(x)] *)
Fixpoint for_each {A} (body : A -> M unit) (l : list A) : M unit :=
  match l with
  | [] => ret tt
  | x :: l' => _ <- body x ; for_each body l'
  end.

(** ** State updates *)

Definition set_fs (v : gmap string (list csv_record)) (s : state) : state :=
  {| fs := v; open_file := open_file s; trace := trace s; live_log := live_log s;
     next_oid := next_oid s; results := results s; header_written := header_written s;
     outputs_ref := outputs_ref s; output_ref := output_ref s |}.

Definition set_open_file (v : option (string * list csv_record)) (s : state) : state :=
  {| fs := fs s; open_file := v; trace := trace s; live_log := live_log s;
     next_oid := next_oid s; results := results s; header_written := header_written s;
     outputs_ref := outputs_ref s; output_ref := output_ref s |}.

Definition set_trace (v : list event) (s : state) : state :=
  {| fs := fs s; open_file := open_file s; trace := v; live_log := live_log s;
     next_oid := next_oid s; results := results s; header_written := header_written s;
     outputs_ref := outputs_ref s; output_ref := output_ref s |}.

Definition set_live_log (v : list (list oid)) (s : state) : state :=
  {| fs := fs s; open_file := open_file s; trace := trace s; live_log := v;
     next_oid := next_oid s; results := results s; header_written := header_written s;
     outputs_ref := outputs_ref s; output_ref := output_ref s |}.

Definition set_next_oid (v : oid) (s : state) : state :=
  {| fs := fs s; open_file := open_file s; trace := trace s; live_log := live_log s;
     next_oid := v; results := results s; header_written := header_written s;
     outputs_ref := outputs_ref s; output_ref := output_ref s |}.

Definition set_results (v : list RowDict.t) (s : state) : state :=
  {| fs := fs s; open_file := open_file s; trace := trace s; live_log := live_log s;
     next_oid := next_oid s; results := v; header_written := header_written s;
     outputs_ref := outputs_ref s; output_ref := output_ref s |}.

Definition set_header_written (v : bool) (s : state) : state :=
  {| fs := fs s; open_file := open_file s; trace := trace s; live_log := live_log s;
     next_oid := next_oid s; results := results s; header_written := v;
     outputs_ref := outputs_ref s; output_ref := output_ref s |}.

Definition set_outputs_ref (v : option (list oid)) (s : state) : state :=
  {| fs := fs s; open_file := open_file s; trace := trace s; live_log := live_log s;
     next_oid := next_oid s; results := results s; header_written := header_written s;
     outputs_ref := v; output_ref := output_ref s |}.

Definition set_output_ref (v : option oid) (s : state) : state :=
  {| fs := fs s; open_file := open_file s; trace := trace s; live_log := live_log s;
     next_oid := next_oid s; results := results s; header_written := header_written s;
     outputs_ref := outputs_ref s; output_ref := v |}.

(** The generation outputs reachable from the locals of [main]: the elements
    of the list bound to [outputs] and the dict bound to [output]. *)
Definition live (s : state) : list oid :=
  remove_dups (default [] (outputs_ref s) ++ option_list (output_ref s)).

(** Instrumentation: record the live set after a binding changed. *)
Definition log_live : M unit :=
  modify (fun s => set_live_log (live_log s ++ [live s]) s).

Definition emit (ev : event) : M unit :=
  modify (fun s => set_trace (trace s ++ [ev]) s).

(** [outputs = <a list of n freshly built dicts>]; returns the identity of
    the first one, the others follow it. *)
Definition bind_outputs (n : nat) : M oid :=
  first <- gets next_oid ;
  _ <- modify (fun s => set_outputs_ref (Some (seq first n))
                          (set_next_oid (first + n)%nat s)) ;
  _ <- log_live ;
  ret first.

(** the loop variable [output] is rebound *)
Definition bind_output (o : oid) : M unit :=
  _ <- modify (set_output_ref (Some o)) ;
  log_live.

(** [del outputs, batch] unbinds the name; the loop variable stays bound. *)
Definition del_outputs : M unit :=
  _ <- modify (set_outputs_ref None) ;
  log_live.

(** ** The file operations of the [with] block *)

Definition file_content (s : state) (path : string) : list csv_record :=
  default [] (fs s !! path).

(** [open(path, mode='a')]: creates the file when it is missing. *)
Definition open_append (path : string) : M unit :=
  _ <- modify (fun s => set_open_file (Some (path, []))
                          (set_fs (<[path := file_content s path]> (fs s)) s)) ;
  emit (EvOpen path).

(** a write goes to the buffer of the open file *)
Definition write (rec : csv_record) : M unit :=
  h <- gets open_file ;
  match h with
  | Some (path, buf) =>
      _ <- modify (set_open_file (Some (path, buf ++ [rec]))) ;
      emit (EvWrite rec)
  | None => raise (ValueError "I/O operation on closed file")
  end.

(** leaving the [with] block closes the file, which flushes the buffer *)
Definition close : M unit :=
  h <- gets open_file ;
  match h with
  | Some (path, buf) =>
      _ <- modify (fun s => set_open_file None
                              (set_fs (<[path := file_content s path ++ buf]> (fs s)) s)) ;
      emit (EvClose path)
  | None => ret tt
  end.

(** ** [main_pipeline.py]: [batchify] and [main] *)

(** [batchify(data, batch_size)].  The generator is consumed by one [for]
    loop; the slices are pure, so it is modelled by the list it yields, and
    the [ValueError] of a zero step surfaces before the first batch. *)
Definition batchify {A} (data : list A) (batch_size : Z) : result (list (list A)) :=
  starts <-? Py.range 0 (Z.of_nat (length data)) batch_size ;
  inr (map (fun i => Py.slice data i (i + batch_size)) starts).

Section Orchestrator.

Variable C : collaborators.
Variable a : args.

(** Step 1 of [main]: the [if]/[elif] chain over [args.dataset]. *)
Definition load_dataset : result (list sample) :=
  if String.eqb (dataset a) "sampleqa" then inr (load_sampleqa_dataset C)
  else if String.eqb (dataset a) "sciq" then
    inr (load_sciq_dataset C (DATASET_PATH C) (model a))
  else if String.eqb (dataset a) "coqa" then inr (load_coqa_dataset C)
  else if String.eqb (dataset a) "triviaqa" then
    inr (load_triviaqa_dataset C "validation")
  else inl (ValueError ("Unsupported dataset: " +:+ dataset a)).

Definition save_path : string := "results_" +:+ dataset a +:+ ".csv".

(** [args.similarity_method == 'attention'] *)
Definition wants_attention : bool := String.eqb (similarity_method a) "attention".

(** [similarity_score if similarity_score is not None else 'NA'] *)
Definition or_NA (v : pyval) : pyval :=
  match v with
  | PyNone => PyStr "NA"
  | _ => v
  end.

(** Steps 2 to 5 of the loop body: the scorers and the row. *)
Definition sample_row (batch_idx i : nat) (smp : sample) (output : item) : result RowDict.t :=
  lik <-? compute_likelihoods C output ;
  unc <-? compute_uncertainty_scores C lik (uncertainty_method a) ;
  correctness <-? evaluate_response C smp output ;
  similarity <-? (if wants_attention then compute_similarity C output "attention"
                  else inr PyNone) ;
  score <-? dict_getitem unc "score" ;
  inr {| RowDict.id := Z.of_nat batch_idx * batch_size a + Z.of_nat i;
         RowDict.question := question smp;
         RowDict.generated_answer := generated_text output;
         RowDict.uncertainty := score;
         RowDict.correct := correctness;
         RowDict.similarity_score := or_NA similarity |}.

(** Step 6: the [with open(save_path, mode='a')] block. *)
Definition append_row (r : RowDict.t) : M unit :=
  _ <- open_append save_path ;
  hw <- gets header_written ;
  _ <- (if hw then ret tt
        else _ <- write (CsvHeader RowDict.keys) ; modify (set_header_written true)) ;
  _ <- write (CsvRow r) ;
  close.

(** The body of [for i, (sample, output) in enumerate(zip(batch, outputs))].
    [first] is the identity of [outputs[0]], so [output] is object
    [first + i]. *)
Definition process_sample (batch_idx : nat) (first : oid)
    (x : nat * (sample * item)) : M unit :=
  let '(i, (smp, output)) := x in
  _ <- bind_output (first + i)%nat ;
  r <- lift (sample_row batch_idx i smp output) ;
  _ <- modify (fun s => set_results (results s ++ [r]) s) ;
  append_row r.

(** The body of [for batch_idx, batch in enumerate(batchify(...))]. *)
Definition process_batch (x : nat * list sample) : M unit :=
  let '(batch_idx, batch) := x in
  lv <- gets live ;
  _ <- emit (EvGenerate batch wants_attention lv) ;
  outs <- lift (run_generation C batch (model a) true wants_attention None) ;
  first <- bind_outputs (length outs) ;
  _ <- for_each (process_sample batch_idx first)
                (Py.enumerate (Py.zip batch outs)) ;
  _ <- del_outputs ;
  emit EvEmptyCache.

(** A call of [main] starts with a fresh frame: [outputs] and [output]
    are unbound. *)
Definition enter_main (s : state) : state :=
  set_output_ref None (set_outputs_ref None s).

(** [results = []] and [header_written = False] *)
Definition init_locals (s : state) : state :=
  set_header_written false (set_results [] s).

(** [main(args)]: load the dataset, then batch by batch generate, score,
    persist and release. *)
Definition main : M unit :=
  _ <- modify enter_main ;
  data <- lift load_dataset ;
  _ <- modify init_locals ;
  batches <- lift (batchify data (batch_size a)) ;
  for_each process_batch (Py.enumerate batches).

End Orchestrator.

(** A machine on which nothing has run yet. *)
Definition boot : state :=
  {| fs := ∅; open_file := None; trace := []; live_log := []; next_oid := O;
     results := []; header_written := false; outputs_ref := None; output_ref := None |}.

(** Instrumentation read-out: the largest number of generation outputs alive
    at once. *)
Definition peak_live (s : state) : nat :=
  foldr Nat.max O (map (@length oid) (live_log s)).

(** ** Observations on a state *)

Definition is_io (ev : event) : bool :=
  match ev with
  | EvOpen _ | EvWrite _ | EvClose _ => true
  | _ => false
  end.

(** The file operations of a trace, in order. *)
Definition io_events (tr : list event) : list event := List.filter is_io tr.

Definition gen_call (ev : event) : option (list sample * bool) :=
  match ev with
  | EvGenerate batch flag _ => Some (batch, flag)
  | _ => None
  end.

(** The generation calls of a trace: the batch and the attention flag. *)
Definition gen_calls (tr : list event) : list (list sample * bool) := omap gen_call tr.

(** The live sets seen at the generation calls of a trace. *)
Definition live_at_calls (tr : list event) : list (list oid) :=
  omap (fun ev => match ev with EvGenerate _ _ lv => Some lv | _ => None end) tr.

(** What [rows] add to the destination when the header flag is [hw]. *)
Definition records (hw : bool) (rows : list RowDict.t) : list csv_record :=
  match rows with
  | [] => []
  | _ => (if hw then [] else [CsvHeader RowDict.keys]) ++ map CsvRow rows
  end.

(** The file operations of one append, and of a sequence of appends. *)
Definition transaction (path : string) (hw : bool) (r : RowDict.t) : list event :=
  EvOpen path :: (if hw then [] else [EvWrite (CsvHeader RowDict.keys)])
    ++ [EvWrite (CsvRow r); EvClose path].

Fixpoint transactions (path : string) (hw : bool) (rows : list RowDict.t) : list event :=
  match rows with
  | [] => []
  | r :: rest => transaction path hw r ++ transactions path true rest
  end.

(** [extends path s rows gens s']: from [s] to [s'] the rows [rows] were
    appended to [results] and to the destination [path], each in one
    open-write-close transaction, the generation calls [gens] were issued,
    no other file changed, and the trace only grew. *)
Record extends (path : string) (s : state) (rows : list RowDict.t)
    (gens : list (list sample * bool)) (s' : state) : Prop := {
  ext_results : results s' = results s ++ rows;
  ext_header : header_written s' = match rows with [] => header_written s | _ => true end;
  ext_open : open_file s' = match rows with [] => open_file s | _ => None end;
  ext_file : file_content s' path = file_content s path ++ records (header_written s) rows;
  ext_other : forall p, p <> path -> fs s' !! p = fs s !! p;
  ext_io : io_events (trace s') = io_events (trace s) ++ transactions path (header_written s) rows;
  ext_gen : gen_calls (trace s') = gen_calls (trace s) ++ gens;
  ext_trace : exists evs, trace s' = trace s ++ evs
}.

(** ** The run as a pure function of the collaborators *)

Definition outcome (e : option exn) : result unit :=
  match e with
  | None => inr tt
  | Some x => inl x
  end.

(** Rows of the attempts before the first exception, and that exception. *)
Fixpoint collect (l : list (result RowDict.t)) : list RowDict.t * option exn :=
  match l with
  | [] => ([], None)
  | inl e :: _ => ([], Some e)
  | inr r :: rest => let '(rows, e) := collect rest in (r :: rows, e)
  end.

Section Run.

Variable C : collaborators.
Variable a : args.

Definition attempt (batch_idx : nat) (x : nat * (sample * item)) : result RowDict.t :=
  let '(i, (smp, output)) := x in sample_row C a batch_idx i smp output.

(** One batch: the generation call, then the samples in order. *)
Definition run_batch (x : nat * list sample) : list RowDict.t * option exn :=
  let '(batch_idx, batch) := x in
  match run_generation C batch (model a) true (wants_attention a) None with
  | inl e => ([], Some e)
  | inr outs => collect (map (attempt batch_idx) (Py.enumerate (Py.zip batch outs)))
  end.

(** The batches in order, up to the first exception: the rows emitted,
    the batches generation was called on, the exception. *)
Fixpoint run_batches (bs : list (nat * list sample))
    : list RowDict.t * list (list sample) * option exn :=
  match bs with
  | [] => ([], [], None)
  | x :: rest =>
      match run_batch x with
      | (rows, Some e) => (rows, [snd x], Some e)
      | (rows, None) =>
          let '(rows', gens, e) := run_batches rest in
          (rows ++ rows', snd x :: gens, e)
      end
  end.

Definition run_rows (bs : list (nat * list sample)) : list RowDict.t :=
  fst (fst (run_batches bs)).

Definition run_gens (bs : list (nat * list sample)) : list (list sample * bool) :=
  map (fun batch => (batch, wants_attention a)) (snd (fst (run_batches bs))).

Definition run_error (bs : list (nat * list sample)) : option exn :=
  snd (run_batches bs).

End Run.

(** ** Shape of the batches *)

(** The [k]-th window of width [b]: [data[k*b : k*b + b]]. *)
Definition window {A} (b : nat) (data : list A) (k : nat) : list A :=
  take b (drop (k * b) data).

(** Every batch but the last has exactly [b] elements; the last one has
    between one and [b]. *)
Inductive full_but_last {A} (b : nat) : list (list A) -> Prop :=
| fbl_nil : full_but_last b []
| fbl_last x : (0 < length x <= b)%nat -> full_but_last b [x]
| fbl_cons x y l :
    length x = b -> full_but_last b (y :: l) -> full_but_last b (x :: y :: l).

(** [start, start + 1, ..., start + n - 1] *)
Definition ids_from (start : Z) (n : nat) : list Z :=
  map (fun k => start + Z.of_nat k) (seq 0 n).

(** ** Further observations *)

Definition is_header (rec : csv_record) : bool :=
  match rec with
  | CsvHeader _ => true
  | CsvRow _ => false
  end.

(** Number of header records in a file. *)
Definition count_headers (l : list csv_record) : nat := length (List.filter is_header l).

(** Number of [writeheader] calls in a trace. *)
Definition header_writes (tr : list event) : nat :=
  length (List.filter (fun ev => match ev with EvWrite rec => is_header rec | _ => false end) tr).

(** Whether a run that emitted [rows] wrote the header: once, or never. *)
Definition header_count (rows : list RowDict.t) : nat :=
  match rows with
  | [] => O
  | _ => 1%nat
  end.

(** [a] with another similarity tag. *)
Definition set_similarity_method (m : string) (a : args) : args :=
  {| model := model a; uncertainty_method := uncertainty_method a;
     similarity_method := m; sbert_model := sbert_model a;
     batch_size := batch_size a; dataset := dataset a |}.

(** [C] with another similarity scorer. *)
Definition set_compute_similarity (f : item -> string -> result pyval)
    (C : collaborators) : collaborators :=
  {| DATASET_PATH := DATASET_PATH C;
     load_sampleqa_dataset := load_sampleqa_dataset C;
     load_sciq_dataset := load_sciq_dataset C;
     load_coqa_dataset := load_coqa_dataset C;
     load_triviaqa_dataset := load_triviaqa_dataset C;
     tokenizer := tokenizer C;
     model_generate := model_generate C;
     batch_decode := batch_decode C;
     torch_log := torch_log C;
     compute_likelihoods := compute_likelihoods C;
     compute_uncertainty_scores := compute_uncertainty_scores C;
     compute_uncertainty_scores_methods := compute_uncertainty_scores_methods C;
     evaluate_response := evaluate_response C;
     compute_similarity := f |}.

(** The dataset names [main] accepts. *)
Definition known_dataset (name : string) : Prop :=
  name = "sampleqa"%string \/ name = "sciq"%string
  \/ name = "coqa"%string \/ name = "triviaqa"%string.

(** The similarity tags of the configuration surface: the attention-based
    method, the embedding-based one, and the disabling [none]. *)
Definition known_similarity_method (m : string) : Prop :=
  m = "attention"%string \/ m = "sbert"%string \/ m = "none"%string.

(** A tag that asks for a similarity score. *)
Definition similarity_requested (m : string) : Prop :=
  m = "attention"%string \/ m = "sbert"%string.

(** The contract of [model.generate] for [max_length], on the padded
    batches the tokenizer produces: no returned sequence is longer than
    [max_length], and there is one score tensor per generated position. *)
Definition honours_max_length (C : collaborators) : Prop :=
  forall model_name prompts max_length output_scores output_attentions outputs,
    let encoded := tokenizer C model_name prompts in
    padded_length encoded <= max_length ->
    model_generate C model_name encoded max_length output_scores output_attentions
    = inr outputs ->
    Forall (fun row => Z.of_nat (length row) <= max_length) (g_sequences outputs)
    /\ Z.of_nat (length (g_scores outputs)) <= max_length - padded_length encoded.

(** Modelled from the spec: [analysis/likelihoods.py] is not among the source
    files.  Section 4.1: for each generation step [t],
    [token_log_likelihoods[t]] is the log-probability of the generated token
    under the normalised step scores and [entropy_per_token[t]] the entropy
    of that distribution; both are empty when [scores] is.  The two
    numerical reductions are parameters. *)
Definition spec_compute_likelihoods (log_prob : tensor -> Z -> Q) (entropy : tensor -> Q)
    (output : item) : result likelihoods :=
  let steps := default [] (scores output) in
  let continuation := drop (length (input_ids output)) (generated_ids output) in
  inr {| token_log_likelihoods :=
           imap (fun t step => log_prob step (nth t continuation 0)) steps;
         entropy_per_token := map entropy steps |}.

(** ** Statements that are compared with the code *)

(** Scoring failures are isolated: whenever generation succeeds on every
    batch, the run completes and persists one row per sample. *)
Definition scoring_failure_isolated (C : collaborators) (a : args) (s : state) : Prop :=
  forall data batches,
    load_dataset C a = inr data ->
    batchify data (batch_size a) = inr batches ->
    (forall batch, In batch batches ->
       exists outs,
         run_generation C batch (model a) true (wants_attention a) None = inr outs) ->
    exists s',
      main C a s = (inr tt, s')
      /\ length (results s') = length data
      /\ file_content s' (save_path a)
         = file_content s (save_path a) ++ records false (results s').

(** Every requested similarity method is scored: the row carries what the
    scorer returns for the configured method. *)
Definition similarity_always_scored (C : collaborators) (a : args) : Prop :=
  similarity_requested (similarity_method a) ->
  forall batch_idx i smp output r,
    sample_row C a batch_idx i smp output = inr r ->
    exists v,
      compute_similarity C output (similarity_method a) = inr v
      /\ RowDict.similarity_score r = or_NA v.

(** An unknown similarity tag is fatal before any generation call. *)
Definition unknown_method_is_fatal (C : collaborators) (a : args) (s : state) : Prop :=
  ~ known_similarity_method (similarity_method a) ->
  exists e s',
    main C a s = (inl e, s') /\ gen_calls (trace s') = gen_calls (trace s).

(** The [scores] of an item hold one vocabulary vector per entry. *)
Definition scores_are_vocabulary_vectors (C : collaborators) (batch : list sample)
    (model_name : string) (return_attentions : bool) : Prop :=
  forall outs,
    run_generation C batch model_name true return_attentions None = inr outs ->
    forall it sc t,
      In it outs -> scores it = Some sc -> In t sc -> length (shape t) = 1%nat.

(** When a generation call is issued no earlier generation output is alive,
    and at most one batch of outputs is alive at any time. *)
Definition outputs_released_between_batches (C : collaborators) (a : args) (s : state) : Prop :=
  let s' := snd (main C a s) in
  Forall (fun lv => lv = []) (live_at_calls (trace s'))
  /\ Z.of_nat (peak_live s') <= batch_size a.

(** ** A small concrete installation *)

Module Demo.

Definition qa (q : string) : sample :=
  {| question := q; prompt := None; reference_answers := [];
     sample_token_log_likelihoods := None; sample_entropy_per_token := None |}.

Definition samples : list sample := map qa ["a"; "bb"; "ccc"; "dddd"; "eeeee"]%string.

(** A tokenizer with one token per prompt (its length), a model that emits
    up to two tokens within [max_length] over a vocabulary of three, and
    scorers of which only the similarity scorer can fail: it raises on the
    prompt of twenty characters. *)
Definition collab : collaborators :=
  {| DATASET_PATH := "data/sciq";
     load_sampleqa_dataset := samples;
     load_sciq_dataset := fun _ _ => [];
     load_coqa_dataset := [];
     load_triviaqa_dataset := fun _ => [];
     tokenizer := fun _ prompts => map (fun p => [Z.of_nat (String.length p)]) prompts;
     model_generate := fun _ encoded max_length _ output_attentions =>
       let n := Z.to_nat (Z.min 2 (max_length - padded_length encoded)) in
       inr {| g_sequences := map (fun row => row ++ repeat 7 n) encoded;
              g_scores :=
              repeat {| shape := [length encoded; 3%nat];
                        data := repeat (1 # 3)%Q (length encoded * 3) |} n;
              g_attentions :=
                if output_attentions
                then Some [AttnTuple [ {| shape := [1%nat]; data := [(1 # 2)%Q] |} ]]
                else None |};
     batch_decode := fun _ rows => map (fun _ => "ans"%string) rows;
     torch_log := fun q => q;
     compute_likelihoods := fun _ =>
       inr {| token_log_likelihoods := []; entropy_per_token := [] |};
     compute_uncertainty_scores := fun _ _ => inr [("score"%string, PyFloat (1 # 2))];
     compute_uncertainty_scores_methods := fun _ _ _ => inr [];
     evaluate_response := fun _ _ => inr (PyBool true);
     compute_similarity := fun it _ =>
       if hd 0 (input_ids it) =? 20 then inl (RuntimeError "similarity failed")
       else inr (PyFloat (1 # 4)) |}.

Definition cli (similarity : string) : args :=
  {| model := "demo-model"; uncertainty_method := "lastde";
     similarity_method := similarity; sbert_model := "all-MiniLM-L6-v2";
     batch_size := 2; dataset := "sampleqa" |}.

(** The item built for the first sample. *)
Definition item0 : item :=
  {| input_ids := [19]; generated_ids := [19; 7; 7]; generated_text := "ans";
     scores := Some (repeat {| shape := [2%nat; 3%nat]; data := repeat (1 # 3)%Q 6 |} 2);
     log_attentions := None; uncertainty_scores := None |}.

End Demo.

(** ** Definitions for the further properties *)

(** Number of batches [batchify] yields over [n] items for a positive size:
    [n] divided by the size, rounded up. *)
Definition batch_count (n : nat) (B : Z) : nat :=
  Z.to_nat ((Z.of_nat n + B - 1) / B).

(** [if uncertainty_methods:] of [run_generation]: [None] and the empty list
    are falsy. *)
Definition methods_given (um : option (list string)) : bool :=
  match um with
  | Some (_ :: _) => true
  | _ => false
  end.

(** An item without its [uncertainty_scores] key. *)
Definition without_uncertainty (it : item) : item :=
  {| input_ids := input_ids it; generated_ids := generated_ids it;
     generated_text := generated_text it; scores := scores it;
     log_attentions := log_attentions it; uncertainty_scores := None |}.

(** The tensor [log_attention_of] transforms: the tensor itself, or element
    [0] of a tuple. *)
Definition attention_source (att : attention) : option tensor :=
  match att with
  | AttnTensor t => Some t
  | AttnTuple layers => layers !! O
  end.

(** The keys of a [dict]. *)
Definition dict_keys (d : py_dict) : list string := map fst d.

(** [tame n s s']: from [s] to [s'] every recorded set of live generation
    outputs had at most [n] elements, and every generation call was issued
    with at most one output alive. *)
Record tame (n : nat) (s s' : state) : Prop := {
  tame_log :
    exists new,
      live_log s' = live_log s ++ new
      /\ Forall (fun lv : list oid => (length lv <= n)%nat) new;
  tame_calls :
    exists evs,
      trace s' = trace s ++ evs
      /\ Forall (fun lv : list oid => (length lv <= 1)%nat) (live_at_calls evs)
}.

(** Variations of the concrete installation. *)
Module Scenario.

(** [C] with another model. *)
Definition set_model_generate
    (g : string -> list (list Z) -> Z -> bool -> bool -> result generate_output)
    (C : collaborators) : collaborators :=
  {| DATASET_PATH := DATASET_PATH C;
     load_sampleqa_dataset := load_sampleqa_dataset C;
     load_sciq_dataset := load_sciq_dataset C;
     load_coqa_dataset := load_coqa_dataset C;
     load_triviaqa_dataset := load_triviaqa_dataset C;
     tokenizer := tokenizer C;
     model_generate := g;
     batch_decode := batch_decode C;
     torch_log := torch_log C;
     compute_likelihoods := compute_likelihoods C;
     compute_uncertainty_scores := compute_uncertainty_scores C;
     compute_uncertainty_scores_methods := compute_uncertainty_scores_methods C;
     evaluate_response := evaluate_response C;
     compute_similarity := compute_similarity C |}.

(** [C] with other uncertainty scorers. *)
Definition set_uncertainty
    (u : likelihoods -> string -> result py_dict)
    (um : likelihood_dict -> model_output -> list string -> result py_dict)
    (C : collaborators) : collaborators :=
  {| DATASET_PATH := DATASET_PATH C;
     load_sampleqa_dataset := load_sampleqa_dataset C;
     load_sciq_dataset := load_sciq_dataset C;
     load_coqa_dataset := load_coqa_dataset C;
     load_triviaqa_dataset := load_triviaqa_dataset C;
     tokenizer := tokenizer C;
     model_generate := model_generate C;
     batch_decode := batch_decode C;
     torch_log := torch_log C;
     compute_likelihoods := compute_likelihoods C;
     compute_uncertainty_scores := u;
     compute_uncertainty_scores_methods := um;
     evaluate_response := evaluate_response C;
     compute_similarity := compute_similarity C |}.

(** The model runs out of memory on the batch that starts with the prompt
    of 21 characters (the second batch of [Demo.samples]). *)
Definition generation_fails : collaborators :=
  set_model_generate
    (fun name encoded max_length os oa =>
       if hd 0 (hd [] encoded) =? 21 then inl (RuntimeError "CUDA out of memory")
       else model_generate Demo.collab name encoded max_length os oa)
    Demo.collab.

(** The uncertainty scorers answer with a dict that has no ['score'] key,
    and the one of [run_generation] raises. *)
Definition no_score_key : collaborators :=
  set_uncertainty
    (fun _ method => inr [("method"%string, PyStr method)])
    (fun _ _ _ => inl (RuntimeError "unsupported method"))
    Demo.collab.

End Scenario.

(** ** More observations on [main] *)

(** [a] with another [--sbert_model]. *)
Definition set_sbert_model (m : string) (a : args) : args :=
  {| model := model a; uncertainty_method := uncertainty_method a;
     similarity_method := similarity_method a; sbert_model := m;
     batch_size := batch_size a; dataset := dataset a |}.

(** [writer.writerow(row)] *)
Definition is_row_write (ev : event) : bool :=
  match ev with
  | EvWrite (CsvRow _) => true
  | _ => false
  end.

(** The number of rows written in a trace. *)
Definition row_writes (tr : list event) : nat := length (List.filter is_row_write tr).

(** ** More of [models/generator.py] *)

(** A function applied to the value of a computation that did not raise. *)
Definition result_map {A B} (f : A -> B) (r : result A) : result B :=
  match r with
  | inl e => inl e
  | inr x => inr (f x)
  end.

(** ["uncertainty_scores" in item] *)
Definition has_uncertainty (it : item) : bool :=
  match uncertainty_scores it with
  | Some _ => true
  | None => false
  end.


(** [load_model_and_tokenizer] and the two module-level dicts it fills.
    The model and tokenizer objects are opaque; the two [from_pretrained]
    calls may raise, and [loads] records each one that is issued. *)
Module ModelCache.

Inductive load_event : Type :=
| TokenizerFromPretrained (name : string)
| ModelFromPretrained (name : string).

Definition loaded_name (ev : load_event) : string :=
  match ev with
  | TokenizerFromPretrained name => name
  | ModelFromPretrained name => name
  end.

(** How many times the model [name] was asked for from the hub. *)
Definition model_loads (name : string) (evs : list load_event) : nat :=
  length (List.filter
            (fun ev => match ev with
                       | ModelFromPretrained n => String.eqb n name
                       | TokenizerFromPretrained _ => false
                       end) evs).

Section Cache.

Variables Model Tokenizer : Type.

(** [AutoTokenizer.from_pretrained(model_name, use_fast=False)] *)
Variable tokenizer_from_pretrained : string -> result Tokenizer.

(** [AutoModelForCausalLM.from_pretrained(model_name, ...)] followed by
    [model.eval()], which switches the same object to evaluation mode. *)
Variable model_from_pretrained : string -> result Model.

Record caches : Type := Caches {
  _model_cache : gmap string Model;
  _tokenizer_cache : gmap string Tokenizer;
  loads : list load_event
}.

(** The module as imported: [_model_cache = {}], [_tokenizer_cache = {}]. *)
Definition fresh : caches :=
  {| _model_cache := ∅; _tokenizer_cache := ∅; loads := [] |}.

(** [d[k]] *)
Definition getitem {V} (d : gmap string V) (k : string) : result V :=
  match d !! k with
  | Some v => inr v
  | None => inl (KeyError k)
  end.

Definition log (ev : load_event) (c : caches) : caches :=
  {| _model_cache := _model_cache c; _tokenizer_cache := _tokenizer_cache c;
     loads := loads c ++ [ev] |}.

(** [return _model_cache[model_name], _tokenizer_cache[model_name]] *)
Definition cached (model_name : string) (c : caches) : result (Model * Tokenizer) :=
  m <-? getitem (_model_cache c) model_name ;
  t <-? getitem (_tokenizer_cache c) model_name ;
  inr (m, t).

Definition load_model_and_tokenizer (model_name : string) (c : caches) :
    result (Model * Tokenizer) * caches :=
  match _model_cache c !! model_name with
  | Some _ => (cached model_name c, c)
  | None =>
      let c1 := log (TokenizerFromPretrained model_name) c in
      match tokenizer_from_pretrained model_name with
      | inl e => (inl e, c1)
      | inr tokenizer =>
          let c2 := log (ModelFromPretrained model_name) c1 in
          match model_from_pretrained model_name with
          | inl e => (inl e, c2)
          | inr model =>
              let c3 :=
                {| _model_cache := <[model_name := model]> (_model_cache c2);
                   _tokenizer_cache := <[model_name := tokenizer]> (_tokenizer_cache c2);
                   loads := loads c2 |} in
              (cached model_name c3, c3)
          end
      end
  end.

(** Successive calls within one process, a caller going on after a call
    that raised. *)
Fixpoint calls (names : list string) (c : caches) :
    list (result (Model * Tokenizer)) * caches :=
  match names with
  | [] => ([], c)
  | name :: rest =>
      let (r, c1) := load_model_and_tokenizer name c in
      let (rs, c2) := calls rest c1 in
      (r :: rs, c2)
  end.

(** What the two [from_pretrained] calls give for a name, without a cache. *)
Definition uncached (model_name : string) : result (Model * Tokenizer) :=
  t <-? tokenizer_from_pretrained model_name ;
  m <-? model_from_pretrained model_name ;
  inr (m, t).

(** Every cached model is the one loaded under its name, and comes with
    the tokenizer loaded under that name. *)
Definition faithful (c : caches) : Prop :=
  forall k m,
    _model_cache c !! k = Some m ->
    model_from_pretrained k = inr m
    /\ exists t, _tokenizer_cache c !! k = Some t /\ tokenizer_from_pretrained k = inr t.

End Cache.

(** A hub on which ["missing"] has no tokenizer and ["broken"] has a
    tokenizer but no loadable weights. *)
Definition hub_tokenizer (name : string) : result string :=
  if String.eqb name "missing" then inl (RuntimeError "no such repository")
  else inr ("tokenizer of " +:+ name).

Definition hub_model (name : string) : result string :=
  if String.eqb name "broken" then inl (RuntimeError "no weights")
  else inr ("weights of " +:+ name).

End ModelCache.

(** ** The command line of [main_pipeline.py] *)

(** The [argparse] block.  The command line is taken as already split into
    option occurrences, the [type=] conversion of each value done. *)
Module Cli.

Inductive occurrence : Type :=
| OptModel (v : string)
| OptUncertaintyMethod (v : string)
| OptSimilarityMethod (v : string)
| OptSbertModel (v : string)
| OptBatchSize (v : Z)
| OptDataset (v : string).

(** [choices=["sciq", "coqa", "triviaqa", "sampleqa"]] *)
Definition dataset_choices : list string := ["sciq"; "coqa"; "triviaqa"; "sampleqa"]%string.

(** The namespace before any occurrence is stored: the [default=] values,
    which [argparse] does not check against [choices]. *)
Definition defaults (MODEL_NAME : string) : args :=
  {| model := MODEL_NAME; uncertainty_method := "lastde";
     similarity_method := "sbert"; sbert_model := "all-MiniLM-L6-v2";
     batch_size := 32; dataset := "sciq" |}.

(** One occurrence stored into the namespace; [None] is the parser's
    error exit on a value outside [choices]. *)
Definition store (o : occurrence) (a : args) : option args :=
  match o with
  | OptModel v =>
      Some {| model := v; uncertainty_method := uncertainty_method a;
              similarity_method := similarity_method a; sbert_model := sbert_model a;
              batch_size := batch_size a; dataset := dataset a |}
  | OptUncertaintyMethod v =>
      Some {| model := model a; uncertainty_method := v;
              similarity_method := similarity_method a; sbert_model := sbert_model a;
              batch_size := batch_size a; dataset := dataset a |}
  | OptSimilarityMethod v =>
      Some {| model := model a; uncertainty_method := uncertainty_method a;
              similarity_method := v; sbert_model := sbert_model a;
              batch_size := batch_size a; dataset := dataset a |}
  | OptSbertModel v =>
      Some {| model := model a; uncertainty_method := uncertainty_method a;
              similarity_method := similarity_method a; sbert_model := v;
              batch_size := batch_size a; dataset := dataset a |}
  | OptBatchSize v =>
      Some {| model := model a; uncertainty_method := uncertainty_method a;
              similarity_method := similarity_method a; sbert_model := sbert_model a;
              batch_size := v; dataset := dataset a |}
  | OptDataset v =>
      if existsb (String.eqb v) dataset_choices
      then Some {| model := model a; uncertainty_method := uncertainty_method a;
                   similarity_method := similarity_method a; sbert_model := sbert_model a;
                   batch_size := batch_size a; dataset := v |}
      else None
  end.

Fixpoint store_all (occs : list occurrence) (a : args) : option args :=
  match occs with
  | [] => Some a
  | o :: rest =>
      match store o a with
      | Some a' => store_all rest a'
      | None => None
      end
  end.

(** [parser.parse_args()] *)
Definition parse_args (MODEL_NAME : string) (occs : list occurrence) : option args :=
  store_all occs (defaults MODEL_NAME).

End Cli.

(** * Proofs *)

(** ** Python built-ins *)

Lemma enumerate_from_length {A} (l : list A) k : length (Py.enumerate_from k l) = length l.
Proof. revert k; induction l as [|x l IH]; intros k; simpl; [reflexivity | now rewrite IH]. Qed.

Lemma enumerate_from_app {A} (l1 l2 : list A) k :
  Py.enumerate_from k (l1 ++ l2)
  = Py.enumerate_from k l1 ++ Py.enumerate_from (k + length l1) l2.
Proof.
  revert k; induction l1 as [|x l1 IH]; intros k; simpl.
  - now rewrite Nat.add_0_r.
  - rewrite IH. do 3 f_equal. lia.
Qed.

Lemma enumerate_from_snd {A} (l : list A) k : map snd (Py.enumerate_from k l) = l.
Proof. revert k; induction l as [|x l IH]; intros k; simpl; [reflexivity | now rewrite IH]. Qed.

Lemma enumerate_from_fst {A} (l : list A) k :
  map fst (Py.enumerate_from k l) = seq k (length l).
Proof. revert k; induction l as [|x l IH]; intros k; simpl; [reflexivity | now rewrite IH]. Qed.

Lemma mapR_length {A B} (f : A -> result B) l ys : mapR f l = inr ys -> length ys = length l.
Proof.
  revert ys; induction l as [|x l IH]; intros ys; simpl.
  - intros [= <-]. reflexivity.
  - destruct (f x) as [e|y]; simpl; [discriminate|].
    destruct (mapR f l) as [e|ys']; simpl; [discriminate|].
    intros [= <-]. simpl. now rewrite (IH ys').
Qed.

Lemma mapR_lookup {A B} (f : A -> result B) l ys i y :
  mapR f l = inr ys -> ys !! i = Some y -> exists x, l !! i = Some x /\ f x = inr y.
Proof.
  revert ys i; induction l as [|x l IH]; intros ys i; simpl.
  - intros [= <-]. rewrite lookup_nil. discriminate.
  - destruct (f x) as [e|y0] eqn:Hx; simpl; [discriminate|].
    destruct (mapR f l) as [e|ys'] eqn:Hl; simpl; [discriminate|].
    intros [= <-]. destruct i as [|i]; simpl.
    + intros [= <-]. eauto.
    + intros Hi. destruct (IH ys' i eq_refl Hi) as (x' & ? & ?). eauto.
Qed.

(** ** [batchify] *)

Lemma slice_window {A} (l : list A) (i B : Z) :
  0 <= i -> 0 < B ->
  Py.slice l i (i + B) = take (Z.to_nat B) (drop (Z.to_nat i) l).
Proof.
  intros Hi HB. unfold Py.slice, Py.clamp_index.
  destruct (Z.ltb_spec i 0); [lia|].
  destruct (Z.ltb_spec (i + B) 0); [lia|].
  set (n := Z.of_nat (length l)).
  assert (Hn : length l = Z.to_nat n) by (unfold n; lia). clearbody n.
  destruct (Z.le_gt_cases i n) as [Hin|Hin].
  - rewrite (Z.min_l i n) by lia.
    destruct (Z.le_gt_cases (i + B) n) as [HB'|HB'].
    + rewrite Z.min_l by lia. f_equal. lia.
    + rewrite Z.min_r by lia.
      rewrite !take_ge; [reflexivity | |]; rewrite length_drop; lia.
  - rewrite !Z.min_r by lia. rewrite Z.sub_diag.
    rewrite (drop_ge l (Z.to_nat n)), (drop_ge l (Z.to_nat i)) by lia.
    now rewrite !take_nil.
Qed.

Lemma range_len_pos n B :
  0 <= n -> 0 < B -> Py.range_len 0 n B = Z.to_nat ((n + B - 1) / B).
Proof.
  intros Hn HB. unfold Py.range_len.
  destruct (Z.ltb_spec 0 B); [|lia].
  destruct (Z.ltb_spec 0 n).
  - f_equal. rewrite Z.sub_0_r. replace (n + B - 1) with ((n - 1) + 1 * B) by lia.
    rewrite Z.div_add by lia. reflexivity.
  - assert (n = 0) by lia. subst. rewrite Z.div_small by lia. reflexivity.
Qed.

(** The number of batches [batchify] yields for a positive batch size. *)
Lemma batch_count_bounds (n : nat) (B : Z) :
  0 < B ->
  let m := Z.to_nat ((Z.of_nat n + B - 1) / B) in
  (n <= m * Z.to_nat B)%nat /\ (m = O \/ ((m - 1) * Z.to_nat B < n)%nat).
Proof.
  intros HB m. subst m.
  set (q := (Z.of_nat n + B - 1) / B).
  assert (Hq1 : B * q <= Z.of_nat n + B - 1) by (apply Z.mul_div_le; lia).
  assert (Hq2 : Z.of_nat n + B - 1 < B * Z.succ q) by (apply Z.mul_succ_div_gt; lia).
  assert (Hq0 : 0 <= q) by (apply Z.div_pos; lia).
  clearbody q. split.
  - apply Nat2Z.inj_le. rewrite Nat2Z.inj_mul, !Z2Nat.id by lia. nia.
  - destruct (Z.eq_dec q 0) as [->|Hne]; [left; reflexivity|right].
    apply Nat2Z.inj_lt. rewrite Nat2Z.inj_mul, Nat2Z.inj_sub, !Z2Nat.id by lia.
    simpl. nia.
Qed.

Lemma batchify_windows {A} (data : list A) (B : Z) :
  0 < B ->
  batchify data B
  = inr (map (window (Z.to_nat B) data)
             (seq 0 (Z.to_nat ((Z.of_nat (length data) + B - 1) / B)))).
Proof.
  intros HB. unfold batchify, Py.range.
  destruct (Z.eqb_spec B 0); [lia|]. simpl. f_equal.
  rewrite map_map, range_len_pos by lia.
  apply map_ext. intros k. unfold window.
  rewrite Z.add_0_l, slice_window by lia.
  now rewrite Z2Nat.inj_mul, Nat2Z.id by lia.
Qed.

Lemma concat_windows {A} (data : list A) (b m : nat) :
  concat (map (window b data) (seq 0 m)) = take (m * b) data.
Proof.
  induction m as [|m IH]; [reflexivity|].
  rewrite seq_S, map_app, concat_app, IH. simpl. rewrite app_nil_r.
  unfold window. rewrite take_take_drop. f_equal. lia.
Qed.

Lemma window_length {A} (data : list A) (b k : nat) :
  length (window b data k) = Nat.min b (length data - k * b).
Proof. unfold window. now rewrite length_take, length_drop. Qed.

Lemma full_but_last_intro {A} (b : nat) (l : list (list A)) :
  (forall k x, l !! k = Some x -> (0 < length x <= b)%nat) ->
  (forall k x, l !! k = Some x -> (S k < length l)%nat -> length x = b) ->
  full_but_last b l.
Proof.
  induction l as [|x l IH]; intros Hall Hfull; [constructor|].
  destruct l as [|y l].
  - constructor. apply (Hall O). reflexivity.
  - constructor.
    + apply (Hfull O); [reflexivity | simpl; lia].
    + apply IH.
      * intros k z Hk. apply (Hall (S k)). exact Hk.
      * intros k z Hk Hlt. apply (Hfull (S k)); [exact Hk | simpl in *; lia].
Qed.

(** For a positive batch size the batches are the consecutive windows of
    the data: they concatenate to it and all but the last are full. *)
Lemma batchify_shape {A} (data : list A) (B : Z) :
  0 < B ->
  exists batches,
    batchify data B = inr batches
    /\ concat batches = data
    /\ full_but_last (Z.to_nat B) batches
    /\ (forall k batch, batches !! k = Some batch ->
          batch = window (Z.to_nat B) data k).
Proof.
  intros HB. eexists. split; [apply batchify_windows; exact HB|].
  destruct (batch_count_bounds (length data) B HB) as [Hup Hlow].
  set (m := Z.to_nat ((Z.of_nat (length data) + B - 1) / B)) in *.
  set (b := Z.to_nat B) in *.
  assert (Hb : (0 < b)%nat) by (unfold b; lia).
  assert (Hlk : forall k batch,
             map (window b data) (seq 0 m) !! k = Some batch ->
             batch = window b data k /\ (k < m)%nat).
  { intros k batch Hk. rewrite list_lookup_fmap in Hk.
    destruct (seq 0 m !! k) as [j|] eqn:Hj; [|discriminate].
    apply lookup_seq in Hj as [-> Hlt]. simpl in Hk. injection Hk as <-. auto. }
  split; [|split].
  - rewrite concat_windows. apply take_ge. exact Hup.
  - apply full_but_last_intro.
    + intros k x Hk. apply Hlk in Hk as [-> Hlt]. rewrite window_length.
      destruct Hlow as [->|Hlow]; [lia|].
      assert (k * b <= (m - 1) * b)%nat by (apply Nat.mul_le_mono_r; lia). lia.
    + intros k x Hk Hlt. apply Hlk in Hk as [-> _]. rewrite window_length.
      rewrite length_map, length_seq in Hlt.
      destruct Hlow as [->|Hlow]; [lia|].
      assert (S k * b <= (m - 1) * b)%nat by (apply Nat.mul_le_mono_r; lia).
      simpl in *. lia.
  - intros k batch Hk. apply Hlk in Hk as [-> _]. reflexivity.
Qed.

Example batchify_five_by_two :
  batchify [10; 11; 12; 13; 14] 2 = inr [[10; 11]; [12; 13]; [14]].
Proof. reflexivity. Qed.

Example batchify_zero_size :
  batchify [10; 11; 12] 0 = inl (ValueError "range() arg 3 must not be zero").
Proof. reflexivity. Qed.

Example batchify_negative_size : batchify [10; 11; 12] (-2) = inr [].
Proof. reflexivity. Qed.

(** ** The relation [extends] *)

Lemma io_events_app tr1 tr2 : io_events (tr1 ++ tr2) = io_events tr1 ++ io_events tr2.
Proof. apply List.filter_app. Qed.

Lemma gen_calls_app tr1 tr2 : gen_calls (tr1 ++ tr2) = gen_calls tr1 ++ gen_calls tr2.
Proof. apply omap_app. Qed.

Lemma records_app hw rows1 rows2 :
  records hw (rows1 ++ rows2)
  = records hw rows1 ++ records (match rows1 with [] => hw | _ => true end) rows2.
Proof.
  destruct rows1 as [|r1 rows1]; [reflexivity|].
  destruct rows2 as [|r2 rows2].
  - now rewrite !app_nil_r.
  - simpl. destruct hw; simpl; now rewrite map_app.
Qed.

Lemma transactions_app path hw rows1 rows2 :
  transactions path hw (rows1 ++ rows2)
  = transactions path hw rows1
    ++ transactions path (match rows1 with [] => hw | _ => true end) rows2.
Proof.
  revert hw; induction rows1 as [|r rows1 IH]; intros hw; [reflexivity|].
  simpl. rewrite IH, <- !app_assoc. simpl.
  now destruct rows1.
Qed.

Lemma extends_refl path s : extends path s [] [] s.
Proof.
  split; simpl; rewrite ?app_nil_r; auto.
  exists []. now rewrite app_nil_r.
Qed.

Lemma extends_trans path s rows1 gens1 s' rows2 gens2 s'' :
  extends path s rows1 gens1 s' ->
  extends path s' rows2 gens2 s'' ->
  extends path s (rows1 ++ rows2) (gens1 ++ gens2) s''.
Proof.
  intros [R1 H1 O1 F1 X1 I1 G1 [evs1 T1]] [R2 H2 O2 F2 X2 I2 G2 [evs2 T2]]. split.
  - now rewrite R2, R1, app_assoc.
  - rewrite H2, H1. now destruct rows1, rows2.
  - rewrite O2, O1. now destruct rows1, rows2.
  - now rewrite F2, F1, H1, records_app, app_assoc.
  - intros p Hp. now rewrite X2, X1.
  - now rewrite I2, I1, H1, transactions_app, app_assoc.
  - now rewrite G2, G1, app_assoc.
  - exists (evs1 ++ evs2). now rewrite T2, T1, app_assoc.
Qed.

(** A step that only extends the trace with calls that are not file
    operations. *)
Lemma extends_quiet path s s' evs :
  fs s' = fs s -> open_file s' = open_file s ->
  results s' = results s -> header_written s' = header_written s ->
  trace s' = trace s ++ evs -> io_events evs = [] ->
  extends path s [] (gen_calls evs) s'.
Proof.
  intros Hfs Ho Hr Hh Ht Hio. split; simpl; rewrite ?app_nil_r; auto.
  - unfold file_content. now rewrite Hfs.
  - intros p _. now rewrite Hfs.
  - now rewrite Ht, io_events_app, Hio, app_nil_r.
  - now rewrite Ht, gen_calls_app.
  - now exists evs.
Qed.

Section RunProofs.

Variable C : collaborators.
Variable a : args.

Lemma process_sample_run batch_idx first x s :
  exists s',
    process_sample C a batch_idx first x s
    = (outcome (snd (collect [attempt C a batch_idx x])), s')
    /\ extends (save_path a) s (fst (collect [attempt C a batch_idx x])) [] s'.
Proof.
  destruct x as [i [smp output]]. unfold process_sample, attempt.
  unfold bind, bind_output, log_live, modify, lift. simpl.
  destruct (sample_row C a batch_idx i smp output) as [e|r]; simpl.
  - eexists; split; [reflexivity|].
    apply (extends_quiet _ _ _ []); simpl; rewrite ?app_nil_r; reflexivity.
  - unfold append_row, bind, open_append, write, close, emit, gets, modify. simpl.
    destruct (header_written s) eqn:Hhw; simpl.
    all: eexists; split; [reflexivity|].
    all: split; simpl; rewrite ?Hhw; try reflexivity.
    all: unfold file_content; simpl.
    all: try (intros p Hp; now rewrite !lookup_insert_ne by congruence).
    all: try (now rewrite !lookup_insert_eq).
    all: try (eexists; rewrite <- !app_assoc; reflexivity).
    all: rewrite <- ?app_assoc, !io_events_app || rewrite <- ?app_assoc, !gen_calls_app;
         simpl; rewrite ?app_nil_r; reflexivity.
Qed.

Lemma sample_loop_run batch_idx first xs s :
  exists s',
    for_each (process_sample C a batch_idx first) xs s
    = (outcome (snd (collect (map (attempt C a batch_idx) xs))), s')
    /\ extends (save_path a) s (fst (collect (map (attempt C a batch_idx) xs))) [] s'.
Proof.
  revert s; induction xs as [|x xs IH]; intros s.
  - exists s. split; [reflexivity | apply extends_refl].
  - destruct (process_sample_run batch_idx first x s) as (s1 & Hrun & Hext).
    cbn [for_each map]. unfold bind at 1. rewrite Hrun.
    cbn [collect] in *. destruct (attempt C a batch_idx x) as [e|r]; cbn in *.
    + exists s1. split; [reflexivity | exact Hext].
    + destruct (IH s1) as (s2 & Hrun2 & Hext2). rewrite Hrun2.
      destruct (collect (map (attempt C a batch_idx) xs)) as [rows e]. cbn in *.
      exists s2. split; [reflexivity|].
      apply (extends_trans _ _ [r] [] s1 rows [] s2); assumption.
Qed.

Lemma process_batch_run x s :
  exists s',
    process_batch C a x s = (outcome (snd (run_batch C a x)), s')
    /\ extends (save_path a) s (fst (run_batch C a x)) [(snd x, wants_attention a)] s'.
Proof.
  destruct x as [batch_idx batch]. unfold process_batch, run_batch.
  unfold bind at 1 2 3. unfold gets at 1, emit at 1, modify at 1, lift. cbn [snd].
  set (s1 := set_trace _ s).
  assert (Hgen : extends (save_path a) s [] [(batch, wants_attention a)] s1).
  { apply (extends_quiet _ s s1 [EvGenerate batch (wants_attention a) (live s)]);
      reflexivity. }
  destruct (run_generation C batch (model a) true (wants_attention a) None) as [e|outs].
  - exists s1. split; [reflexivity | exact Hgen].
  - unfold bind at 1. unfold bind_outputs, bind, gets, modify, log_live, ret. cbn.
    set (s2 := set_live_log _ _).
    assert (Hbind : extends (save_path a) s1 [] [] s2).
    { apply (extends_quiet _ s1 s2 []); cbn; rewrite ?app_nil_r; reflexivity. }
    destruct (sample_loop_run batch_idx (next_oid s) (Py.enumerate (Py.zip batch outs)) s2)
      as (s3 & Hloop & Hext3).
    replace (next_oid s1) with (next_oid s) by reflexivity.
    rewrite Hloop.
    destruct (collect _) as [rows e]. cbn [fst snd] in *.
    assert (Hto3 : extends (save_path a) s rows [(batch, wants_attention a)] s3).
    { apply (extends_trans _ s [] [(batch, wants_attention a)] s1 rows [] s3 Hgen).
      apply (extends_trans _ s1 [] [] s2 rows [] s3 Hbind Hext3). }
    destruct e as [e|]; cbn.
    + exists s3. split; [reflexivity | exact Hto3].
    + unfold del_outputs, bind, modify, log_live, emit. cbn.
      eexists. split; [reflexivity|].
      rewrite <- (app_nil_r rows), <- (app_nil_r [(batch, wants_attention a)]).
      eapply extends_trans; [exact Hto3|].
      apply (extends_quiet _ s3 _ [EvEmptyCache]); reflexivity.
Qed.

Lemma batch_loop_run bs s :
  exists s',
    for_each (process_batch C a) bs s = (outcome (run_error C a bs), s')
    /\ extends (save_path a) s (run_rows C a bs) (run_gens C a bs) s'.
Proof.
  unfold run_error, run_rows, run_gens.
  revert s; induction bs as [|x bs IH]; intros s.
  - exists s. split; [reflexivity | apply extends_refl].
  - destruct (process_batch_run x s) as (s1 & Hrun & Hext).
    cbn [for_each run_batches]. unfold bind at 1. rewrite Hrun.
    destruct (run_batch C a x) as [rows [e|]]; cbn [fst snd outcome] in *.
    + exists s1. split; [reflexivity|]. exact Hext.
    + destruct (IH s1) as (s2 & Hrun2 & Hext2). rewrite Hrun2.
      destruct (run_batches C a bs) as [[rows' gens] e]. cbn [fst snd map] in *.
      exists s2. split; [reflexivity|].
      apply (extends_trans _ s rows [(snd x, wants_attention a)] s1 _ _ s2 Hext Hext2).
Qed.

(** The run of [main] on a known dataset with a non-zero batch size. *)
Lemma main_run s data batches :
  load_dataset C a = inr data ->
  batchify data (batch_size a) = inr batches ->
  exists s',
    main C a s = (outcome (run_error C a (Py.enumerate batches)), s')
    /\ extends (save_path a) (init_locals (enter_main s))
         (run_rows C a (Py.enumerate batches)) (run_gens C a (Py.enumerate batches)) s'.
Proof.
  intros Hload Hbatches. unfold main, bind, modify, lift.
  rewrite Hload, Hbatches. apply batch_loop_run.
Qed.

End RunProofs.

(** ** [run_generation] *)

Lemma enumerate_from_lookup {A} (l : list A) k i :
  Py.enumerate_from k l !! i = (fun x => ((k + i)%nat, x)) <$> l !! i.
Proof.
  revert k i; induction l as [|x l IH]; intros k i; [now destruct i|].
  destruct i as [|i]; simpl.
  - now rewrite Nat.add_0_r.
  - rewrite IH. now replace (S k + i)%nat with (k + S i)%nat by lia.
Qed.

Lemma index_Some {A} (l : list A) i x : Py.index l i = inr x -> l !! i = Some x.
Proof. unfold Py.index. destruct (l !! i); [intros [= ->]; reflexivity | discriminate]. Qed.

Section GeneratorProofs.

Variable C : collaborators.

(** What ends up in [log_attentions] for one generation step: the
    transform of the tensor itself, or of element [0] when the step is a
    tuple of tensors. *)
Lemma log_attention_of_data att t :
  log_attention_of C att = inr t ->
  exists src,
    (att = AttnTensor src \/ exists rest, att = AttnTuple (src :: rest))
    /\ shape t = shape src
    /\ data t = map (fun w => torch_log C (1 + Qmax w clamp_min)%Q) (data src).
Proof.
  destruct att as [src|[|src rest]]; cbn.
  - intros [= <-]. exists src. auto.
  - discriminate.
  - intros [= <-]. exists src. eauto.
Qed.

(** What a successfully built item holds. *)
Lemma build_item_fields rl ra um encoded outputs decoded prompts i smp it :
  build_item C rl ra um encoded outputs decoded prompts i smp = inr it ->
  encoded !! i = Some (input_ids it)
  /\ g_sequences outputs !! i = Some (generated_ids it)
  /\ decoded !! i = Some (generated_text it)
  /\ scores it = (if rl then Some (g_scores outputs) else None).
Proof.
  unfold build_item.
  destruct (Py.index encoded i) as [|ids] eqn:H1; [discriminate|].
  destruct (Py.index (g_sequences outputs) i) as [|gids] eqn:H2; [discriminate|].
  destruct (Py.index decoded i) as [|text] eqn:H3; [discriminate|]. cbn [bindR].
  match goal with |- bindR ?x _ = _ -> _ => destruct x as [|la]; [discriminate|] end.
  cbn [bindR].
  destruct (Py.index prompts i) as [|ptext]; [discriminate|]. cbn [bindR].
  intros [= <-]. cbn.
  auto using index_Some.
Qed.

(** One item per sample, in the order of the batch, all built from the one
    [model.generate] call on the whole batch. *)
Lemma run_generation_items batch model_name rl ra um outs :
  run_generation C batch model_name rl ra um = inr outs ->
  let encoded := tokenizer C model_name (map prompt_of batch) in
  exists outputs,
    model_generate C model_name encoded (padded_length encoded + 64) rl ra = inr outputs
    /\ length outs = length batch
    /\ forall i it, outs !! i = Some it ->
         encoded !! i = Some (input_ids it)
         /\ g_sequences outputs !! i = Some (generated_ids it)
         /\ batch_decode C model_name
              (map (fun row => Py.slice_from row (padded_length encoded))
                   (g_sequences outputs)) !! i = Some (generated_text it)
         /\ scores it = (if rl then Some (g_scores outputs) else None).
Proof.
  intros Hrun encoded. unfold run_generation in Hrun. fold encoded in Hrun.
  destruct (model_generate C model_name encoded (padded_length encoded + 64) rl ra)
    as [|outputs]; [discriminate|]. cbn [bindR] in Hrun.
  exists outputs. split; [reflexivity|]. split.
  - apply mapR_length in Hrun. unfold Py.enumerate in Hrun.
    now rewrite Hrun, enumerate_from_length.
  - intros i it Hi.
    destruct (mapR_lookup _ _ _ _ _ Hrun Hi) as ([j smp] & Hl & Hb).
    unfold Py.enumerate in Hl. rewrite enumerate_from_lookup in Hl.
    destruct (batch !! i); [|discriminate]. cbn in Hl.
    injection Hl as <- _.
    eapply build_item_fields. exact Hb.
Qed.

Lemma run_generation_length batch model_name rl ra um outs :
  run_generation C batch model_name rl ra um = inr outs -> length outs = length batch.
Proof. intros H. now destruct (run_generation_items _ _ _ _ _ _ H) as (? & _ & ? & _). Qed.

End GeneratorProofs.

(** ** The rows of a run *)

Lemma ids_from_lookup (rows : list RowDict.t) (start : Z) :
  (forall j r, rows !! j = Some r -> RowDict.id r = start + Z.of_nat j) ->
  map RowDict.id rows = ids_from start (length rows).
Proof.
  intros H. apply list_eq. intros j. unfold ids_from.
  rewrite !list_lookup_fmap.
  destruct (rows !! j) as [r|] eqn:Hj; simpl.
  - rewrite (lookup_seq_lt _ _ j) by (eapply lookup_lt_Some; eassumption).
    simpl. f_equal. now apply H.
  - rewrite lookup_seq_ge; [reflexivity|]. now apply lookup_ge_None.
Qed.

Lemma collect_length l :
  (length (fst (collect l)) <= length l)%nat
  /\ (snd (collect l) = None -> length (fst (collect l)) = length l)
  /\ (snd (collect l) <> None -> (length (fst (collect l)) < length l)%nat).
Proof.
  induction l as [|[e|r] l IH]; cbn.
  - repeat split; [lia | congruence].
  - repeat split; [lia | discriminate | lia].
  - destruct (collect l) as [rows e]; cbn in *.
    destruct IH as (H1 & H2 & H3). repeat split; [lia | auto | ].
    intros H. specialize (H3 H). lia.
Qed.

(** The collected rows are the successes at the same positions. *)
Lemma collect_lookup l j r :
  fst (collect l) !! j = Some r -> l !! j = Some (inr r).
Proof.
  revert j; induction l as [|[e|r'] l IH]; intros j; cbn.
  - now rewrite lookup_nil.
  - now rewrite lookup_nil.
  - destruct (collect l) as [rows e]; cbn in *.
    destruct j as [|j]; cbn; [intros [= ->]; reflexivity | apply IH].
Qed.

(** An attempt that raises stops the collection at or before it. *)
Lemma collect_fail_at l i e :
  l !! i = Some (inl e) ->
  snd (collect l) <> None /\ (length (fst (collect l)) <= i)%nat.
Proof.
  revert i; induction l as [|[e'|r] l IH]; intros i; cbn.
  - now rewrite lookup_nil.
  - intros _. split; [discriminate | lia].
  - destruct i as [|i]; cbn; [discriminate|]. intros Hi.
    destruct (IH i Hi) as [H1 H2].
    destruct (collect l) as [rows e']; cbn in *. split; [assumption | lia].
Qed.

Lemma full_but_last_prefix {A} (b : nat) (l : list (list A)) k :
  full_but_last b l -> (k < length l)%nat -> length (concat (take k l)) = (k * b)%nat.
Proof.
  intros H; revert k; induction H as [|x Hx|x y l Hx _ IH]; intros k Hk; cbn in *.
  - lia.
  - now replace k with O by lia.
  - destruct k as [|k]; [reflexivity|].
    cbn [take concat]. rewrite length_app, Hx, IH by lia. reflexivity.
Qed.

Section RowProofs.

Variable C : collaborators.
Variable a : args.

Lemma sample_row_fields batch_idx i smp output r :
  sample_row C a batch_idx i smp output = inr r ->
  RowDict.id r = Z.of_nat batch_idx * batch_size a + Z.of_nat i
  /\ RowDict.question r = question smp
  /\ RowDict.generated_answer r = generated_text output
  /\ (similarity_method a = "attention"%string ->
      exists v, compute_similarity C output "attention" = inr v
                /\ RowDict.similarity_score r = or_NA v)
  /\ (similarity_method a <> "attention"%string ->
      RowDict.similarity_score r = PyStr "NA").
Proof.
  unfold sample_row, wants_attention.
  destruct (compute_likelihoods C output) as [|lik]; [discriminate|]. cbn [bindR].
  destruct (compute_uncertainty_scores C lik _) as [|unc]; [discriminate|]. cbn [bindR].
  destruct (evaluate_response C smp output) as [|cor]; [discriminate|]. cbn [bindR].
  destruct (String.eqb_spec (similarity_method a) "attention") as [Heq|Hne].
  - destruct (compute_similarity C output "attention") as [|v]; [discriminate|].
    cbn [bindR].
    destruct (dict_getitem unc "score") as [|sc]; [discriminate|]. cbn [bindR].
    intros [= <-]. cbn. repeat split; eauto. congruence.
  - cbn [bindR].
    destruct (dict_getitem unc "score") as [|sc]; [discriminate|]. cbn [bindR].
    intros [= <-]. cbn. repeat split; eauto. congruence.
Qed.

(** Where a row of one batch comes from. *)
Lemma run_batch_origin batch_idx batch j r :
  fst (run_batch C a (batch_idx, batch)) !! j = Some r ->
  exists outs smp output,
    run_generation C batch (model a) true (wants_attention a) None = inr outs
    /\ batch !! j = Some smp /\ outs !! j = Some output
    /\ sample_row C a batch_idx j smp output = inr r.
Proof.
  unfold run_batch.
  destruct (run_generation C batch (model a) true (wants_attention a) None)
    as [|outs]; cbn [fst]; [now rewrite lookup_nil|].
  intros Hj. apply collect_lookup in Hj.
  rewrite list_lookup_fmap in Hj. unfold Py.enumerate, Py.zip in Hj.
  rewrite enumerate_from_lookup in Hj.
  destruct (combine batch outs !! j) as [[smp output]|] eqn:Hz; [|discriminate].
  cbn in Hj. injection Hj as Hj.
  exists outs, smp, output. split; [reflexivity|].
  change (combine batch outs) with (zip batch outs) in Hz.
  apply lookup_zip_with_Some in Hz as (x & y & [= -> ->] & Hx & Hy).
  auto.
Qed.

Lemma run_batch_length batch_idx batch :
  (length (fst (run_batch C a (batch_idx, batch))) <= length batch)%nat
  /\ (snd (run_batch C a (batch_idx, batch)) = None ->
      length (fst (run_batch C a (batch_idx, batch))) = length batch).
Proof.
  unfold run_batch.
  destruct (run_generation C batch (model a) true (wants_attention a) None)
    as [|outs] eqn:Hgen; cbn [fst snd]; [split; [cbn; lia | discriminate]|].
  apply run_generation_length in Hgen.
  pose proof (collect_length
    (map (attempt C a batch_idx) (Py.enumerate (Py.zip batch outs)))) as (H1 & H2 & _).
  unfold Py.enumerate, Py.zip in *.
  rewrite length_map, enumerate_from_length, length_combine, Hgen, Nat.min_id in *.
  auto.
Qed.

(** A scoring step that raises stops the batch at or before its sample. *)
Lemma run_batch_fail_at batch_idx batch outs i smp output e :
  run_generation C batch (model a) true (wants_attention a) None = inr outs ->
  batch !! i = Some smp -> outs !! i = Some output ->
  sample_row C a batch_idx i smp output = inl e ->
  snd (run_batch C a (batch_idx, batch)) <> None
  /\ (length (fst (run_batch C a (batch_idx, batch))) <= i)%nat.
Proof.
  intros Hgen Hs Ho Hrow. unfold run_batch. rewrite Hgen.
  apply (collect_fail_at _ i e).
  rewrite list_lookup_fmap. unfold Py.enumerate, Py.zip.
  rewrite enumerate_from_lookup.
  change (combine batch outs) with (zip batch outs).
  rewrite (proj2 (lookup_zip_with_Some pair batch outs i (smp, output)))
    by (exists smp, output; auto).
  cbn. now rewrite Hrow.
Qed.

(** Where a row of the run comes from: its batch [k], its offset [i] in
    the batch, and its position in the emission order. *)
Lemma run_rows_origin b0 bs j r :
  run_rows C a (Py.enumerate_from b0 bs) !! j = Some r ->
  exists k batch i outs smp output,
    bs !! k = Some batch
    /\ j = (length (concat (take k bs)) + i)%nat
    /\ run_generation C batch (model a) true (wants_attention a) None = inr outs
    /\ batch !! i = Some smp /\ outs !! i = Some output
    /\ sample_row C a (b0 + k) i smp output = inr r.
Proof.
  unfold run_rows.
  revert b0 j; induction bs as [|x bs IH]; intros b0 j; cbn [Py.enumerate_from run_batches].
  - cbn. now rewrite lookup_nil.
  - pose proof (run_batch_origin b0 x) as Horig.
    pose proof (run_batch_length b0 x) as [_ Hlen].
    destruct (run_batch C a (b0, x)) as [rows [e|]]; cbn [fst snd] in *.
    + intros Hj. destruct (Horig j r Hj) as (outs & smp & output & ? & ? & ? & ?).
      exists O, x, j, outs, smp, output. rewrite Nat.add_0_r. cbn. auto 10.
    + specialize (IH (S b0)).
      destruct (run_batches C a (Py.enumerate_from (S b0) bs)) as [[rows' gens] e].
      cbn [fst snd] in *. intros Hj.
      destruct (lookup_app_Some rows rows' j r) as [Hsplit _].
      destruct (Hsplit Hj) as [Hl|[Hge Hr]].
      * destruct (Horig j r Hl) as (outs & smp & output & ? & ? & ? & ?).
        exists O, x, j, outs, smp, output. rewrite Nat.add_0_r. cbn. auto 10.
      * destruct (IH _ Hr) as (k & batch & i & outs & smp & output & Hk & Hpos & Hrest).
        exists (S k), batch, i, outs, smp, output.
        replace (b0 + S k)%nat with (S b0 + k)%nat by lia.
        split; [exact Hk|]. split; [|exact Hrest].
        cbn [take concat]. rewrite length_app. rewrite Hlen in * by reflexivity. lia.
Qed.

Lemma run_rows_length b0 bs :
  (length (run_rows C a (Py.enumerate_from b0 bs)) <= length (concat bs))%nat
  /\ (run_error C a (Py.enumerate_from b0 bs) = None ->
      length (run_rows C a (Py.enumerate_from b0 bs)) = length (concat bs)).
Proof.
  unfold run_rows, run_error.
  revert b0; induction bs as [|x bs IH]; intros b0; cbn [Py.enumerate_from run_batches].
  - cbn. auto.
  - pose proof (run_batch_length b0 x) as [Hle Hlen].
    destruct (run_batch C a (b0, x)) as [rows [e|]]; cbn [fst snd concat] in *.
    + rewrite length_app. split; [lia | discriminate].
    + specialize (IH (S b0)).
      destruct (run_batches C a (Py.enumerate_from (S b0) bs)) as [[rows' gens] e].
      cbn [fst snd] in *. rewrite !length_app. destruct IH as [IH1 IH2].
      rewrite Hlen by reflexivity. split; [lia|]. intros He. rewrite IH2 by exact He. lia.
Qed.

(** Generation is called on a prefix of the batches, once each, in order;
    on all of them when nothing raises. *)
Lemma run_gens_prefix b0 bs :
  (exists rest, bs = snd (fst (run_batches C a (Py.enumerate_from b0 bs))) ++ rest)
  /\ (run_error C a (Py.enumerate_from b0 bs) = None ->
      snd (fst (run_batches C a (Py.enumerate_from b0 bs))) = bs).
Proof.
  unfold run_error.
  revert b0; induction bs as [|x bs IH]; intros b0; cbn [Py.enumerate_from run_batches].
  - cbn. split; [exists []; reflexivity | auto].
  - destruct (run_batch C a (b0, x)) as [rows [e|]]; cbn [fst snd] in *.
    + split; [exists bs; reflexivity | discriminate].
    + specialize (IH (S b0)).
      destruct (run_batches C a (Py.enumerate_from (S b0) bs)) as [[rows' gens] e].
      cbn [fst snd] in *. destruct IH as [[rest IH1] IH2]. split.
      * exists rest. cbn. now f_equal.
      * intros He. now rewrite IH2.
Qed.

(** A scoring step that raises aborts the run at or before its sample. *)
Lemma run_fail_at b0 bs k batch outs i smp output e :
  bs !! k = Some batch ->
  run_generation C batch (model a) true (wants_attention a) None = inr outs ->
  batch !! i = Some smp -> outs !! i = Some output ->
  sample_row C a (b0 + k) i smp output = inl e ->
  run_error C a (Py.enumerate_from b0 bs) <> None
  /\ (length (run_rows C a (Py.enumerate_from b0 bs))
      <= length (concat (take k bs)) + i)%nat.
Proof.
  unfold run_rows, run_error.
  revert b0 k; induction bs as [|x bs IH]; intros b0 k Hk Hgen Hs Ho Hrow;
    cbn [Py.enumerate_from run_batches]; [now rewrite lookup_nil in Hk|].
  destruct k as [|k]; cbn in Hk.
  - injection Hk as ->. rewrite Nat.add_0_r in Hrow.
    destruct (run_batch_fail_at b0 batch outs i smp output e Hgen Hs Ho Hrow) as [He Hle].
    destruct (run_batch C a (b0, batch)) as [rows [e'|]]; cbn [fst snd] in *;
      [|congruence].
    split; [discriminate | cbn; lia].
  - pose proof (run_batch_length b0 x) as [Hle Hlen].
    destruct (run_batch C a (b0, x)) as [rows [e'|]]; cbn [fst snd take concat] in *.
    + rewrite length_app. split; [discriminate | lia].
    + replace (b0 + S k)%nat with (S b0 + k)%nat in Hrow by lia.
      specialize (IH (S b0) k Hk Hgen Hs Ho Hrow).
      destruct (run_batches C a (Py.enumerate_from (S b0) bs)) as [[rows' gens] e'].
      cbn [fst snd] in *. destruct IH as [IH1 IH2].
      rewrite !length_app, Hlen by reflexivity. split; [assumption | lia].
Qed.

(** With full batches the identifier of a row is its position. *)
Lemma run_rows_ids (b : nat) bs :
  batch_size a = Z.of_nat b ->
  full_but_last b bs ->
  map RowDict.id (run_rows C a (Py.enumerate bs))
  = ids_from 0 (length (run_rows C a (Py.enumerate bs))).
Proof.
  intros HB Hfull. apply ids_from_lookup. intros j r Hj.
  apply run_rows_origin in Hj
    as (k & batch & i & outs & smp & output & Hk & -> & _ & _ & _ & Hrow).
  apply sample_row_fields in Hrow as [-> _].
  rewrite (full_but_last_prefix b bs k Hfull) by (eapply lookup_lt_Some; eassumption).
  rewrite HB. cbn [Nat.add]. lia.
Qed.

End RowProofs.

(** ** The run of [main], read off its final state *)

Lemma outcome_ok e : outcome e = inr tt -> e = None.
Proof. destruct e; [discriminate | reflexivity]. Qed.

Lemma main_final C a s s' out data batches :
  load_dataset C a = inr data ->
  batchify data (batch_size a) = inr batches ->
  main C a s = (out, s') ->
  out = outcome (run_error C a (Py.enumerate batches))
  /\ results s' = run_rows C a (Py.enumerate batches)
  /\ extends (save_path a) (init_locals (enter_main s)) (results s')
       (run_gens C a (Py.enumerate batches)) s'.
Proof.
  intros Hload Hbatches Hmain.
  destruct (main_run C a s data batches Hload Hbatches) as (s1 & Hrun & Hext).
  rewrite Hmain in Hrun. injection Hrun as -> ->.
  assert (Hres : results s1 = run_rows C a (Py.enumerate batches))
    by (rewrite (ext_results _ _ _ _ _ Hext); reflexivity).
  rewrite Hres. auto.
Qed.

(** What the destination holds after [main], whatever the outcome. *)
Lemma main_file C a s s' out data batches :
  load_dataset C a = inr data ->
  batchify data (batch_size a) = inr batches ->
  main C a s = (out, s') ->
  file_content s' (save_path a)
  = file_content s (save_path a) ++ records false (results s').
Proof.
  intros Hload Hbatches Hmain.
  destruct (main_final C a s s' out data batches Hload Hbatches Hmain) as (_ & _ & Hext).
  apply (ext_file _ _ _ _ _ Hext).
Qed.

Lemma batchify_positive {A} (data : list A) (B : Z) batches k batch :
  batchify data B = inr batches -> batches !! k = Some batch -> 0 < B.
Proof.
  unfold batchify, Py.range. destruct (Z.eqb_spec B 0); [discriminate|].
  cbn [bindR]. intros [= <-]. rewrite list_lookup_fmap. intros Hk.
  destruct (Z.lt_trichotomy B 0) as [Hneg|[?|?]]; [|lia|assumption].
  unfold Py.range_len in Hk.
  destruct (Z.ltb_spec 0 B); [lia|].
  destruct (Z.ltb_spec (Z.of_nat (length data)) 0); [lia|].
  cbn in Hk. now rewrite lookup_nil in Hk.
Qed.

(** * Properties of the pipeline *)

(** C3.  For a positive batch size the batches are the consecutive windows
    of the dataset (they concatenate to it, all but the last hold exactly
    [batch_size] samples, the last between one and [batch_size]); the row
    emitted at position [j] was built for the sample at offset [i] of batch
    [k] with [j = k * batch_size + i], and that is its identifier; so the
    identifiers of the emitted rows are [0, 1, 2, ...] in emission order,
    whatever the outcome of the run, and when the run completes there is
    one row per sample: they are exactly [0 .. N-1]; the destination
    received these rows. *)
Theorem ids_are_contiguous C a s s' out data :
  0 < batch_size a ->
  load_dataset C a = inr data ->
  main C a s = (out, s') ->
  (exists batches,
      batchify data (batch_size a) = inr batches
      /\ concat batches = data
      /\ full_but_last (Z.to_nat (batch_size a)) batches
      /\ (forall k batch, batches !! k = Some batch ->
            batch = window (Z.to_nat (batch_size a)) data k)
      /\ (forall j r, results s' !! j = Some r ->
            exists k batch i smp,
              batches !! k = Some batch /\ batch !! i = Some smp
              /\ j = (k * Z.to_nat (batch_size a) + i)%nat
              /\ RowDict.id r = Z.of_nat k * batch_size a + Z.of_nat i
              /\ RowDict.question r = question smp))
  /\ map RowDict.id (results s') = ids_from 0 (length (results s'))
  /\ (length (results s') <= length data)%nat
  /\ (out = inr tt -> length (results s') = length data)
  /\ file_content s' (save_path a)
     = file_content s (save_path a) ++ records false (results s').
Proof.
  intros HB Hload Hmain.
  destruct (batchify_shape data (batch_size a) HB) as (batches & Hb & Hcat & Hfull & Hwin).
  destruct (main_final C a s s' out data batches Hload Hb Hmain) as (Hout & Hres & Hext).
  split.
  { exists batches. do 4 (split; [assumption|]).
    intros j r Hj. rewrite Hres in Hj.
    apply run_rows_origin in Hj
      as (k & batch & i & outs & smp & output & Hk & -> & _ & Hs & _ & Hrow).
    apply sample_row_fields in Hrow as (Hid & Hq & _).
    exists k, batch, i, smp.
    rewrite (full_but_last_prefix _ batches k Hfull)
      by (eapply lookup_lt_Some; eassumption).
    cbn [Nat.add] in Hid. auto. }
  pose proof (run_rows_length C a 0 batches) as [Hle Hall].
  rewrite Hcat in *. fold (Py.enumerate batches) in *. rewrite <- Hres in *.
  split; [|split; [exact Hle|split]].
  - rewrite Hres. apply (run_rows_ids C a (Z.to_nat (batch_size a))); [lia | exact Hfull].
  - intros ->. apply Hall. symmetry in Hout. now apply outcome_ok.
  - apply (ext_file _ _ _ _ _ Hext).
Qed.

Lemma ids_are_contiguous_witness :
  exists s',
    main Demo.collab (Demo.cli "sbert") boot = (inr tt, s')
    /\ map RowDict.id (results s') = [0; 1; 2; 3; 4]
    /\ file_content s' "results_sampleqa.csv" = records false (results s').
Proof.
  destruct (main Demo.collab (Demo.cli "sbert") boot) as [out s'] eqn:Hmain.
  assert (Hout : out = inr tt)
    by (change out with (fst (out, s')); rewrite <- Hmain; vm_compute; reflexivity).
  subst out. exists s'. split; [reflexivity|].
  destruct (ids_are_contiguous Demo.collab (Demo.cli "sbert") boot s' (inr tt) Demo.samples)
    as (_ & Hids & _ & Hlen & Hfile);
    [reflexivity | reflexivity | exact Hmain |].
  rewrite Hids, (Hlen eq_refl). split; [reflexivity | exact Hfile].
Defined.


(** ** Headers *)

Lemma count_headers_app l1 l2 :
  count_headers (l1 ++ l2) = (count_headers l1 + count_headers l2)%nat.
Proof. unfold count_headers. now rewrite List.filter_app, length_app. Qed.

Lemma count_headers_rows rows : count_headers (map CsvRow rows) = O.
Proof. induction rows as [|r rows IH]; [reflexivity | exact IH]. Qed.

Lemma count_headers_records rows : count_headers (records false rows) = header_count rows.
Proof.
  destruct rows as [|r rows]; [reflexivity|].
  unfold records. rewrite count_headers_app, count_headers_rows. reflexivity.
Qed.

Lemma header_writes_app tr1 tr2 :
  header_writes (tr1 ++ tr2) = (header_writes tr1 + header_writes tr2)%nat.
Proof. unfold header_writes. now rewrite List.filter_app, length_app. Qed.

Lemma header_writes_io tr : header_writes (io_events tr) = header_writes tr.
Proof.
  induction tr as [|ev tr IH]; [reflexivity|].
  change (ev :: tr) with ([ev] ++ tr).
  rewrite io_events_app, !header_writes_app, IH. f_equal.
  now destruct ev as [| |[|]| |].
Qed.

Lemma header_writes_later path rows : header_writes (transactions path true rows) = O.
Proof.
  induction rows as [|r rows IH]; [reflexivity|].
  cbn [transactions]. rewrite header_writes_app, IH. reflexivity.
Qed.

Lemma header_writes_first path rows :
  header_writes (transactions path false rows) = header_count rows.
Proof.
  destruct rows as [|r rows]; [reflexivity|].
  cbn [transactions]. rewrite header_writes_app, header_writes_later. reflexivity.
Qed.

(** C7.  Within one run of [main] the header is written exactly once, as
    the first record the run appends and right before its first row, and
    never again (runs that emit no row write none); the [header_written]
    flag records it; the run appends after whatever the destination already
    held, so a destination left by a prior run ends up with one more header
    than it had. *)
Theorem header_written_once C a s s' out data batches :
  load_dataset C a = inr data ->
  batchify data (batch_size a) = inr batches ->
  main C a s = (out, s') ->
  header_writes (trace s') = (header_writes (trace s) + header_count (results s'))%nat
  /\ header_written s' = (match results s' with [] => false | _ => true end)
  /\ file_content s' (save_path a)
     = file_content s (save_path a)
       ++ (match results s' with
           | [] => []
           | rows => CsvHeader RowDict.keys :: map CsvRow rows
           end)
  /\ count_headers (file_content s' (save_path a))
     = (count_headers (file_content s (save_path a)) + header_count (results s'))%nat.
Proof.
  intros Hload Hbatches Hmain.
  destruct (main_final C a s s' out data batches Hload Hbatches Hmain) as (_ & _ & Hext).
  pose proof (ext_io _ _ _ _ _ Hext) as Hio.
  pose proof (ext_header _ _ _ _ _ Hext) as Hflag.
  pose proof (ext_file _ _ _ _ _ Hext) as Hfile.
  cbn in Hio, Hflag, Hfile.
  split; [|split; [|split]].
  - rewrite <- (header_writes_io (trace s')), Hio, header_writes_app,
      header_writes_io, header_writes_first. reflexivity.
  - rewrite Hflag. now destruct (results s').
  - rewrite Hfile. now destruct (results s').
  - rewrite Hfile, count_headers_app, count_headers_records. reflexivity.
Qed.

Lemma header_written_once_witness :
  let s1 := snd (main Demo.collab (Demo.cli "sbert") boot) in
  let s2 := snd (main Demo.collab (Demo.cli "sbert") s1) in
  count_headers (file_content s1 "results_sampleqa.csv") = 1%nat
  /\ header_writes (trace s2) = (header_writes (trace s1) + 1)%nat
  /\ count_headers (file_content s2 "results_sampleqa.csv") = 2%nat.
Proof.
  intros s1 s2.
  assert (H1 : count_headers (file_content s1 "results_sampleqa.csv") = 1%nat)
    by (vm_compute; reflexivity).
  assert (Hrows : header_count (results s2) = 1%nat) by (vm_compute; reflexivity).
  destruct (header_written_once Demo.collab (Demo.cli "sbert") s1 s2
              (fst (main Demo.collab (Demo.cli "sbert") s1)) Demo.samples
              (map (window 2 Demo.samples) (seq 0 3)))
    as (Hw & _ & _ & Hc);
    [reflexivity | vm_compute; reflexivity | apply surjective_pairing |].
  change (save_path (Demo.cli "sbert")) with "results_sampleqa.csv"%string in Hc.
  rewrite Hrows in Hw, Hc. rewrite H1 in Hc. auto.
Defined.

(** C8.  Every append of [main] is one open-write-close transaction on the
    destination, finished when the loop body returns: the file operations of
    a run are the transactions of its rows, one after the other; the file is
    closed afterwards; and whatever the outcome of the run, also when it
    ends in an exception after N appends, the destination holds what it held
    before followed by the header and exactly the N rows appended, while no
    other file changed. *)
Theorem appends_are_transactions C a s s' out data batches :
  load_dataset C a = inr data ->
  batchify data (batch_size a) = inr batches ->
  main C a s = (out, s') ->
  out = outcome (run_error C a (Py.enumerate batches))
  /\ results s' = run_rows C a (Py.enumerate batches)
  /\ io_events (trace s')
     = io_events (trace s) ++ transactions (save_path a) false (results s')
  /\ (open_file s = None -> open_file s' = None)
  /\ file_content s' (save_path a)
     = file_content s (save_path a) ++ records false (results s')
  /\ (forall p, p <> save_path a -> fs s' !! p = fs s !! p)
  /\ (forall batch_idx first x s1 s2,
        process_sample C a batch_idx first x s1 = (inr tt, s2) ->
        exists r,
          attempt C a batch_idx x = inr r
          /\ open_file s2 = None
          /\ file_content s2 (save_path a)
             = file_content s1 (save_path a) ++ records (header_written s1) [r]).
Proof.
  intros Hload Hbatches Hmain.
  destruct (main_final C a s s' out data batches Hload Hbatches Hmain)
    as (Hout & Hres & Hext).
  split; [exact Hout|]. split; [exact Hres|].
  split; [apply (ext_io _ _ _ _ _ Hext)|].
  split; [|split; [apply (ext_file _ _ _ _ _ Hext)|split]].
  - intros Hclosed. rewrite (ext_open _ _ _ _ _ Hext). cbn.
    now destruct (results s').
  - intros p Hp. apply (ext_other _ _ _ _ _ Hext p Hp).
  - intros batch_idx first x s1 s2 Hstep.
    destruct (process_sample_run C a batch_idx first x s1) as (s2' & Hrun & Hext2).
    rewrite Hstep in Hrun. cbn [collect] in *.
    destruct (attempt C a batch_idx x) as [e|r]; cbn in *; [discriminate|].
    injection Hrun as <-. exists r. split; [reflexivity|].
    split; [apply (ext_open _ _ _ _ _ Hext2) | apply (ext_file _ _ _ _ _ Hext2)].
Qed.

Lemma appends_are_transactions_witness :
  let s' := snd (main Demo.collab (Demo.cli "attention") boot) in
  fst (main Demo.collab (Demo.cli "attention") boot) = inl (RuntimeError "similarity failed")
  /\ length (results s') = 1%nat
  /\ open_file s' = None
  /\ file_content s' "results_sampleqa.csv" = records false (results s').
Proof.
  intros s'.
  destruct (appends_are_transactions Demo.collab (Demo.cli "attention") boot s'
              (fst (main Demo.collab (Demo.cli "attention") boot)) Demo.samples
              (map (window 2 Demo.samples) (seq 0 3)))
    as (Hout & Hres & _ & Hopen & Hfile & _);
    [reflexivity | vm_compute; reflexivity | apply surjective_pairing |].
  split; [vm_compute; reflexivity|].
  split; [vm_compute; reflexivity|].
  split; [apply Hopen; reflexivity | exact Hfile].
Defined.

(** ** Scoring failures *)

(** C1, as the specification has it, fails: with the attention method
    requested and a similarity scorer that raises on the second of five
    samples, generation succeeds on every batch and yet the run does not
    complete. *)
Lemma scoring_failure_not_isolated :
  ~ scoring_failure_isolated Demo.collab (Demo.cli "attention") boot.
Proof.
  intros H.
  destruct (H Demo.samples (map (window 2 Demo.samples) (seq 0 3)))
    as (s' & Hmain & _).
  - reflexivity.
  - vm_compute. reflexivity.
  - intros batch Hin. vm_compute in Hin.
    destruct Hin as [<-|[<-|[<-|[]]]]; eexists; vm_compute; reflexivity.
  - assert (Hout : fst (main Demo.collab (Demo.cli "attention") boot)
                 = inl (RuntimeError "similarity failed"))
      by (vm_compute; reflexivity).
    rewrite Hmain in Hout. discriminate Hout.
Qed.

(** C1, as the code has it.  [main] has no handler around the scoring steps:
    when a step (likelihoods, uncertainty, correctness or similarity) raises
    for the sample at offset [i] of batch [k], the run ends in an exception;
    no row is persisted for that sample or any later one (at most [k *
    batch_size + i] rows were emitted, and the identifier of a row is its
    position); and the destination keeps exactly the rows persisted before
    the abort. *)
Theorem scoring_failure_aborts_run C a s data batches k batch outs i smp output e :
  load_dataset C a = inr data ->
  batchify data (batch_size a) = inr batches ->
  batches !! k = Some batch ->
  run_generation C batch (model a) true (wants_attention a) None = inr outs ->
  batch !! i = Some smp ->
  outs !! i = Some output ->
  sample_row C a k i smp output = inl e ->
  exists e' s',
    main C a s = (inl e', s')
    /\ Z.of_nat (length (results s')) <= Z.of_nat k * batch_size a + Z.of_nat i
    /\ Z.of_nat k * batch_size a + Z.of_nat i < Z.of_nat (length data)
    /\ map RowDict.id (results s') = ids_from 0 (length (results s'))
    /\ file_content s' (save_path a)
       = file_content s (save_path a) ++ records false (results s').
Proof.
  intros Hload Hbatches Hk Hgen Hs Ho Hrow.
  pose proof (batchify_positive data (batch_size a) batches k batch Hbatches Hk) as HB.
  destruct (batchify_shape data (batch_size a) HB) as (bs & Hb & Hcat & Hfull & _).
  rewrite Hbatches in Hb. injection Hb as <-.
  destruct (main_run C a s data batches Hload Hbatches) as (s' & Hmain & Hext).
  destruct (run_fail_at C a 0 batches k batch outs i smp output e Hk Hgen Hs Ho Hrow)
    as [Herr Hlen].
  fold (Py.enumerate batches) in Herr, Hlen.
  destruct (run_error C a (Py.enumerate batches)) as [e'|] eqn:He; [|congruence].
  exists e', s'. split; [exact Hmain|].
  assert (Hres : results s' = run_rows C a (Py.enumerate batches))
    by (rewrite (ext_results _ _ _ _ _ Hext); reflexivity).
  assert (Hklt : (k < length batches)%nat) by (eapply lookup_lt_Some; eassumption).
  rewrite (full_but_last_prefix _ _ k Hfull Hklt) in Hlen.
  assert (Hi : (i < length batch)%nat) by (eapply lookup_lt_Some; eassumption).
  assert (Hpos : (k * Z.to_nat (batch_size a) + i < length data)%nat).
  { rewrite <- Hcat, <- (take_drop k batches) at 1.
    rewrite concat_app, length_app, <- (full_but_last_prefix _ _ k Hfull Hklt).
    rewrite (drop_S _ _ _ Hk). cbn [concat]. rewrite length_app. lia. }
  rewrite Hres. split; [|split; [|split]].
  - nia.
  - nia.
  - apply (run_rows_ids C a (Z.to_nat (batch_size a))); [lia | exact Hfull].
  - apply (ext_file _ _ _ _ _ Hext).
Qed.

Lemma scoring_failure_aborts_run_witness :
  exists e' s',
    main Demo.collab (Demo.cli "attention") boot = (inl e', s')
    /\ Z.of_nat (length (results s')) <= 1
    /\ file_content s' "results_sampleqa.csv" = records false (results s').
Proof.
  pose (outs := match run_generation Demo.collab [Demo.qa "a"; Demo.qa "bb"]
                       "demo-model" true true None with
                | inr items => items
                | inl _ => []
                end).
  destruct (scoring_failure_aborts_run Demo.collab (Demo.cli "attention") boot
              Demo.samples (map (window 2 Demo.samples) (seq 0 3))
              0 [Demo.qa "a"; Demo.qa "bb"] outs 1 (Demo.qa "bb") (nth 1 outs Demo.item0)
              (RuntimeError "similarity failed"))
    as (e' & s' & Hmain & Hlen & _ & _ & Hfile);
    [vm_compute; reflexivity .. |].
  exists e', s'. auto.
Defined.

(** ** What [main] depends on *)

Lemma bind_ext {A B} (m m' : M A) (k k' : A -> M B) s :
  m s = m' s -> (forall x s1, k x s1 = k' x s1) -> bind m k s = bind m' k' s.
Proof.
  intros Hm Hk. unfold bind. rewrite Hm.
  destruct (m' s) as [[e|x] s1]; [reflexivity | apply Hk].
Qed.

Lemma for_each_ext {A} (f g : A -> M unit) l :
  (forall x s, f x s = g x s) -> forall s, for_each f l s = for_each g l s.
Proof.
  intros H. induction l as [|x l IH]; intros s; [reflexivity|].
  cbn [for_each]. apply bind_ext; [apply H | intros _ s1; apply IH].
Qed.

(** [main] uses its arguments and collaborators only through the dataset,
    the batch size, the destination, the attention flag, the model name,
    [run_generation] and [sample_row]. *)
Lemma main_congr C a C' a' :
  load_dataset C a = load_dataset C' a' ->
  batch_size a = batch_size a' ->
  save_path a = save_path a' ->
  wants_attention a = wants_attention a' ->
  model a = model a' ->
  (forall batch m rl ra um,
      run_generation C batch m rl ra um = run_generation C' batch m rl ra um) ->
  (forall batch_idx i smp output,
      sample_row C a batch_idx i smp output = sample_row C' a' batch_idx i smp output) ->
  forall s, main C a s = main C' a' s.
Proof.
  intros Hl HB Hp Hw Hm Hg Hr s. unfold main.
  apply bind_ext; [reflexivity | intros _ s1].
  apply bind_ext; [unfold lift; now rewrite Hl | intros data s2].
  apply bind_ext; [reflexivity | intros _ s3].
  apply bind_ext; [unfold lift; now rewrite HB | intros batches s4].
  apply for_each_ext. intros [batch_idx batch] s5. unfold process_batch.
  apply bind_ext; [reflexivity | intros lv s6].
  apply bind_ext; [now rewrite Hw | intros _ s7].
  apply bind_ext; [unfold lift; now rewrite Hg, Hw, Hm | intros outs s8].
  apply bind_ext; [reflexivity | intros first s9].
  apply bind_ext; [|reflexivity].
  apply for_each_ext. intros [i [smp output]] s10. unfold process_sample.
  apply bind_ext; [reflexivity | intros _ s11].
  apply bind_ext; [unfold lift; now rewrite Hr | intros r s12].
  apply bind_ext; [reflexivity | intros _ s13].
  unfold append_row. now rewrite Hp.
Qed.

Lemma run_gens_first C a x bs :
  exists gens, run_gens C a (x :: bs) = (snd x, wants_attention a) :: gens.
Proof.
  unfold run_gens. cbn [run_batches].
  destruct (run_batch C a x) as [rows [e|]]; cbn [fst snd map]; [eauto|].
  destruct (run_batches C a bs) as [[rows' gens] e]. cbn [fst snd map]. eauto.
Qed.

(** ** Similarity *)

(** C2, as the specification has it, fails for the embedding-based method:
    with [similarity_method = "sbert"] the scorer would return a score for
    the first sample, and the row built for it carries ['NA']. *)
Lemma sbert_is_never_scored :
  ~ similarity_always_scored Demo.collab (Demo.cli "sbert").
Proof.
  intros H.
  destruct (H (or_intror eq_refl) O O (Demo.qa "a") Demo.item0 _ eq_refl)
    as (v & Hv & Hr).
  vm_compute in Hv. injection Hv as <-. vm_compute in Hr. discriminate Hr.
Qed.

(** C2, as the code has it.  The similarity scorer is consulted exactly when
    [similarity_method] is ['attention']: every persisted row then carries
    what [compute_similarity] returned for its output (['NA'] when that was
    [None]); for every other tag, the embedding-based ['sbert'] included,
    every row carries the string ['NA'], which is no number, and the run
    does not depend on the scorer at all.  The rows meant are those of
    [results], which are the rows the destination received. *)
Theorem similarity_only_for_attention C a s s' out data batches :
  load_dataset C a = inr data ->
  batchify data (batch_size a) = inr batches ->
  main C a s = (out, s') ->
  (forall r, In r (results s') ->
     exists k batch i outs smp output,
       batches !! k = Some batch
       /\ run_generation C batch (model a) true (wants_attention a) None = inr outs
       /\ batch !! i = Some smp /\ outs !! i = Some output
       /\ sample_row C a k i smp output = inr r
       /\ (similarity_method a = "attention"%string ->
           exists v, compute_similarity C output "attention" = inr v
                     /\ RowDict.similarity_score r = or_NA v)
       /\ (similarity_method a <> "attention"%string ->
           RowDict.similarity_score r = PyStr "NA"
           /\ forall q, RowDict.similarity_score r <> PyFloat q))
  /\ file_content s' (save_path a)
     = file_content s (save_path a) ++ records false (results s')
  /\ (similarity_method a <> "attention"%string ->
      forall f, main (set_compute_similarity f C) a s = main C a s).
Proof.
  intros Hload Hbatches Hmain.
  destruct (main_final C a s s' out data batches Hload Hbatches Hmain) as (_ & Hres & Hext).
  split; [|split].
  - intros r Hin. rewrite Hres in Hin.
    apply list_elem_of_In, list_elem_of_lookup in Hin as [j Hj].
    apply run_rows_origin in Hj
      as (k & batch & i & outs & smp & output & Hk & _ & Hgen & Hs & Ho & Hrow).
    exists k, batch, i, outs, smp, output.
    destruct (sample_row_fields C a _ _ _ _ _ Hrow) as (_ & _ & _ & Hatt & Hna).
    cbn [Nat.add] in Hrow.
    split; [exact Hk|]. split; [exact Hgen|]. split; [exact Hs|].
    split; [exact Ho|]. split; [exact Hrow|]. split; [exact Hatt|].
    intros Hne. rewrite (Hna Hne). split; [reflexivity | discriminate].
  - apply (ext_file _ _ _ _ _ Hext).
  - intros Hne f. apply main_congr; try reflexivity.
    intros batch_idx i smp output. unfold sample_row, wants_attention.
    destruct (String.eqb_spec (similarity_method a) "attention"); [contradiction|].
    reflexivity.
Qed.

Lemma similarity_only_for_attention_witness :
  let s' := snd (main Demo.collab (Demo.cli "sbert") boot) in
  length (results s') = 5%nat
  /\ forall r, In r (results s') -> RowDict.similarity_score r = PyStr "NA".
Proof.
  intros s'.
  destruct (similarity_only_for_attention Demo.collab (Demo.cli "sbert") boot s'
              (fst (main Demo.collab (Demo.cli "sbert") boot)) Demo.samples
              (map (window 2 Demo.samples) (seq 0 3)))
    as (Hrows & _ & _);
    [reflexivity | vm_compute; reflexivity | apply surjective_pairing |].
  split; [vm_compute; reflexivity|].
  intros r Hin.
  destruct (Hrows r Hin) as (k & batch & i & outs & smp & output & _ & _ & _ & _ & _ & _ & Hna).
  apply Hna. discriminate.
Defined.

(** ** Configuration errors *)

(** C4, as the specification has it, fails: a similarity tag that is none
    of the recognised ones is not fatal; the run completes. *)
Lemma unknown_similarity_tag_runs :
  ~ unknown_method_is_fatal Demo.collab (Demo.cli "bogus") boot.
Proof.
  intros H. destruct H as (e & s' & Hmain & _).
  - intros [H|[H|H]]; discriminate H.
  - assert (Hout : fst (main Demo.collab (Demo.cli "bogus") boot) = inr tt)
      by (vm_compute; reflexivity).
    rewrite Hmain in Hout. discriminate Hout.
Qed.

(** C4, as the code has it.  An unknown dataset name is fatal: [main] raises
    [ValueError] before anything else happens (no generation call, no file
    operation; the state is the one [main] was entered with).  The method
    tags are not validated by [main]: any two similarity tags other than
    ['attention'] give the same run, with ['NA'] rows, and whatever the
    uncertainty tag is, a run over a non-empty dataset first issues the
    generation call for its first batch; the tag only reaches
    [compute_uncertainty_scores] afterwards, inside the per-sample loop. *)
Theorem dataset_is_checked_tags_are_not C a s :
  (~ known_dataset (dataset a) ->
   main C a s
   = (inl (ValueError ("Unsupported dataset: " +:+ dataset a)), enter_main s))
  /\ (forall m m',
        m <> "attention"%string -> m' <> "attention"%string ->
        main C (set_similarity_method m a) s = main C (set_similarity_method m' a) s)
  /\ (forall data out s',
        load_dataset C a = inr data -> data <> [] -> 0 < batch_size a ->
        main C a s = (out, s') ->
        exists batch gens,
          gen_calls (trace s')
          = gen_calls (trace s) ++ (batch, wants_attention a) :: gens).
Proof.
  split; [|split].
  - intros Hunknown. unfold main, bind, modify, lift, load_dataset.
    repeat match goal with
           | |- context [String.eqb (dataset a) ?name] =>
               destruct (String.eqb_spec (dataset a) name);
               [exfalso; apply Hunknown; unfold known_dataset; auto|]
           end.
    reflexivity.
  - intros m m' Hm Hm'.
    assert (Hflag : wants_attention (set_similarity_method m a)
                    = wants_attention (set_similarity_method m' a)).
    { unfold wants_attention. cbn.
      destruct (String.eqb_spec m "attention"); [contradiction|].
      destruct (String.eqb_spec m' "attention"); [contradiction|]. reflexivity. }
    apply main_congr; try reflexivity; [exact Hflag|].
    intros batch_idx i smp output. unfold sample_row. now rewrite Hflag.
  - intros data out s' Hload Hne HB Hmain.
    destruct (batchify_shape data (batch_size a) HB) as (batches & Hb & Hcat & _).
    destruct (main_final C a s s' out data batches Hload Hb Hmain) as (_ & _ & Hext).
    destruct batches as [|batch batches]; [cbn in Hcat; congruence|].
    destruct (run_gens_first C a (O, batch) (Py.enumerate_from 1 batches)) as [gens Hg].
    exists batch, gens. rewrite (ext_gen _ _ _ _ _ Hext).
    unfold Py.enumerate. cbn [Py.enumerate_from]. rewrite Hg. reflexivity.
Qed.

Lemma dataset_is_checked_tags_are_not_witness :
  main Demo.collab
       {| model := "demo-model"; uncertainty_method := "lastde";
          similarity_method := "sbert"; sbert_model := "all-MiniLM-L6-v2";
          batch_size := 2; dataset := "squad" |} boot
  = (inl (ValueError "Unsupported dataset: squad"), boot)
  /\ exists batch gens,
       gen_calls (trace (snd (main Demo.collab (Demo.cli "bogus") boot)))
       = (batch, false) :: gens.
Proof.
  split.
  - apply (dataset_is_checked_tags_are_not Demo.collab
             {| model := "demo-model"; uncertainty_method := "lastde";
                similarity_method := "sbert"; sbert_model := "all-MiniLM-L6-v2";
                batch_size := 2; dataset := "squad" |} boot).
    intros [H|[H|[H|H]]]; discriminate H.
  - destruct (dataset_is_checked_tags_are_not Demo.collab (Demo.cli "bogus") boot)
      as (_ & _ & Hgen).
    apply (Hgen Demo.samples (fst (main Demo.collab (Demo.cli "bogus") boot)));
      [reflexivity | discriminate | reflexivity | apply surjective_pairing].
Defined.

(** ** Generation *)

(** C5, as the specification has it, fails: for a batch of two samples each
    entry of an item's [scores] is the tensor of the whole batch, of shape
    [[2; 3]], not one vocabulary vector. *)
Lemma scores_are_batch_tensors :
  ~ scores_are_vocabulary_vectors Demo.collab [Demo.qa "a"; Demo.qa "bb"]
      "demo-model" false.
Proof.
  intros H.
  destruct (run_generation Demo.collab [Demo.qa "a"; Demo.qa "bb"] "demo-model"
              true false None) as [e|outs] eqn:Hrun;
    vm_compute in Hrun; [discriminate Hrun|].
  injection Hrun as <-.
  specialize (H _ eq_refl Demo.item0 _ _
                (or_introl eq_refl) eq_refl (or_introl eq_refl)).
  discriminate H.
Qed.

(** C5, as the code has it.  [main] calls [run_generation] once per batch,
    in batch order, on a prefix of the batches (all of them when the run
    completes), and asks for attentions exactly when [similarity_method] is
    ['attention'].  A successful call makes one [model.generate] call for
    the whole batch and returns one item per sample, in the order of the
    batch: item [i] holds row [i] of the encoded input, row [i] of the
    generated sequences and the [i]-th decoded text.  Its [scores] field is
    the [scores] of the whole call, the same sequence for every sample of
    the batch: one entry per generation step of the batch, each entry the
    tensor the model returned for that step. *)
Theorem generation_once_per_batch C a s s' out data batches :
  load_dataset C a = inr data ->
  batchify data (batch_size a) = inr batches ->
  main C a s = (out, s') ->
  (wants_attention a = true <-> similarity_method a = "attention"%string)
  /\ (exists called rest,
        batches = called ++ rest
        /\ gen_calls (trace s')
           = gen_calls (trace s) ++ map (fun batch => (batch, wants_attention a)) called
        /\ (out = inr tt -> rest = []))
  /\ (forall batch outs,
        run_generation C batch (model a) true (wants_attention a) None = inr outs ->
        let encoded := tokenizer C (model a) (map prompt_of batch) in
        exists outputs,
          model_generate C (model a) encoded (padded_length encoded + 64) true
                         (wants_attention a) = inr outputs
          /\ length outs = length batch
          /\ forall i it, outs !! i = Some it ->
               encoded !! i = Some (input_ids it)
               /\ g_sequences outputs !! i = Some (generated_ids it)
               /\ batch_decode C (model a)
                    (map (fun row => Py.slice_from row (padded_length encoded))
                         (g_sequences outputs)) !! i = Some (generated_text it)
               /\ scores it = Some (g_scores outputs)).
Proof.
  intros Hload Hbatches Hmain.
  destruct (main_final C a s s' out data batches Hload Hbatches Hmain)
    as (Hout & _ & Hext).
  split; [apply String.eqb_eq|]. split.
  - destruct (run_gens_prefix C a 0 batches) as [[rest Hrest] Hall].
    fold (Py.enumerate batches) in Hrest, Hall.
    exists (snd (fst (run_batches C a (Py.enumerate batches)))), rest.
    split; [exact Hrest|]. split; [apply (ext_gen _ _ _ _ _ Hext)|].
    intros ->. symmetry in Hout. apply outcome_ok in Hout.
    rewrite (Hall Hout) in Hrest.
    rewrite <- (app_nil_r batches) in Hrest at 1.
    apply app_inv_head in Hrest. now symmetry.
  - intros batch outs Hrun. apply (run_generation_items C _ _ _ _ _ _ Hrun).
Qed.

Lemma generation_once_per_batch_witness :
  let s' := snd (main Demo.collab (Demo.cli "sbert") boot) in
  exists called rest,
    map (window 2 Demo.samples) (seq 0 3) = called ++ rest
    /\ gen_calls (trace s') = map (fun batch => (batch, false)) called
    /\ rest = [].
Proof.
  intros s'.
  destruct (generation_once_per_batch Demo.collab (Demo.cli "sbert") boot s'
              (fst (main Demo.collab (Demo.cli "sbert") boot)) Demo.samples
              (map (window 2 Demo.samples) (seq 0 3)))
    as (_ & (called & rest & Hsplit & Hcalls & Hrest) & _);
    [reflexivity | vm_compute; reflexivity | apply surjective_pairing |].
  exists called, rest. split; [exact Hsplit|]. split; [exact Hcalls|].
  apply Hrest. vm_compute. reflexivity.
Defined.

(** ** Release of the generation outputs *)

Section LiveProofs.

Variable C : collaborators.
Variable a : args.

(** The loop body leaves [outputs] alone and binds [output]. *)
Lemma process_sample_refs batch_idx first x s :
  outputs_ref (snd (process_sample C a batch_idx first x s)) = outputs_ref s
  /\ output_ref (snd (process_sample C a batch_idx first x s)) = Some (first + fst x)%nat.
Proof.
  destruct x as [i [smp output]].
  unfold process_sample, bind, bind_output, log_live, modify, lift. simpl.
  destruct (sample_row C a batch_idx i smp output) as [e|r]; simpl; [auto|].
  unfold append_row, bind, open_append, write, close, emit, gets, modify. simpl.
  destruct (header_written s); simpl; auto.
Qed.

Lemma sample_loop_refs batch_idx first xs s :
  outputs_ref (snd (for_each (process_sample C a batch_idx first) xs s)) = outputs_ref s
  /\ (xs <> [] \/ output_ref s <> None ->
      output_ref (snd (for_each (process_sample C a batch_idx first) xs s)) <> None).
Proof.
  revert s; induction xs as [|x xs IH]; intros s.
  - cbn. split; [reflexivity | intros [H|H]; [congruence | exact H]].
  - cbn [for_each]. unfold bind at 1. unfold bind at 1.
    pose proof (process_sample_refs batch_idx first x s) as [Ho Hv].
    destruct (process_sample C a batch_idx first x s) as [[e|[]] s1]; cbn [snd] in *.
    + split; [exact Ho | intros _; rewrite Hv; discriminate].
    + destruct (IH s1) as [IH1 IH2]. split; [now rewrite IH1|].
      intros _. apply IH2. right. rewrite Hv. discriminate.
Qed.

(** After a batch that completed, [del outputs, batch] has unbound the
    list, and one output is still alive: the one bound to [output]. *)
Lemma process_batch_leaves_output batch_idx batch s s' :
  batch <> [] ->
  process_batch C a (batch_idx, batch) s = (inr tt, s') ->
  exists o, live s' = [o].
Proof.
  intros Hne. unfold process_batch.
  unfold bind at 1 2 3. unfold gets at 1, emit at 1, modify at 1, lift.
  destruct (run_generation C batch (model a) true (wants_attention a) None)
    as [e|outs] eqn:Hgen; [discriminate|].
  unfold bind at 1. unfold bind_outputs, bind, gets, modify, log_live, ret. cbn.
  set (s2 := set_live_log _ _).
  pose proof (sample_loop_refs batch_idx (next_oid s)
                (Py.enumerate (Py.zip batch outs)) s2) as [_ Hv].
  destruct (for_each _ _ s2) as [[e|[]] s3]; [discriminate|]. cbn [snd] in Hv.
  unfold del_outputs, bind, modify, log_live, emit. cbn. intros [= <-].
  unfold live. cbn.
  destruct (output_ref s3) as [o|]; [exists o; reflexivity|].
  exfalso. apply Hv; [|reflexivity]. left.
  apply run_generation_length in Hgen.
  destruct batch; [contradiction|]. destruct outs; [discriminate Hgen | discriminate].
Qed.

(** The first thing a batch does is issue its generation call, with the
    outputs alive at that moment. *)
Lemma process_batch_trace x s :
  exists evs,
    trace (snd (process_batch C a x s))
    = trace s ++ EvGenerate (snd x) (wants_attention a) (live s) :: evs.
Proof.
  destruct x as [batch_idx batch]. unfold process_batch.
  unfold bind at 1 2 3. unfold gets at 1, emit at 1, modify at 1, lift. cbn [snd].
  destruct (run_generation C batch (model a) true (wants_attention a) None) as [e|outs].
  - exists []. reflexivity.
  - unfold bind at 1. unfold bind_outputs, bind, gets, modify, log_live, ret. cbn.
    set (s2 := set_live_log _ _).
    destruct (sample_loop_run C a batch_idx (next_oid s)
                (Py.enumerate (Py.zip batch outs)) s2) as (s3 & Hloop & Hext).
    rewrite Hloop. destruct (ext_trace _ _ _ _ _ Hext) as [evs Hevs].
    destruct (snd (collect _)) as [e|]; cbn.
    + exists evs. rewrite Hevs. cbn. now rewrite <- app_assoc.
    + unfold del_outputs, bind, modify, log_live, emit. cbn.
      exists (evs ++ [EvEmptyCache]). rewrite Hevs. cbn. now rewrite <- !app_assoc.
Qed.

(** So the generation call of the batch after a completed one is issued
    while an output of the completed batch is still alive. *)
Lemma next_call_sees_previous_output batch_idx batch x s s1 :
  batch <> [] ->
  process_batch C a (batch_idx, batch) s = (inr tt, s1) ->
  exists o evs,
    trace (snd (process_batch C a x s1))
    = trace s1 ++ EvGenerate (snd x) (wants_attention a) [o] :: evs.
Proof.
  intros Hne Hrun.
  destruct (process_batch_leaves_output batch_idx batch s s1 Hne Hrun) as [o Ho].
  destruct (process_batch_trace x s1) as [evs Hevs].
  exists o, evs. now rewrite Hevs, Ho.
Qed.

End LiveProofs.

(** C6 on five samples in batches of two.  The run completes; when the
    second and the third generation call are issued, the last output of the
    batch before (objects 1 and 3) is still bound to the loop variable
    [output], and right after the second call returns three outputs are
    alive, one more than a batch holds. *)
Theorem last_output_outlives_its_batch :
  let s' := snd (main Demo.collab (Demo.cli "sbert") boot) in
  fst (main Demo.collab (Demo.cli "sbert") boot) = inr tt
  /\ batch_size (Demo.cli "sbert") = 2
  /\ live_at_calls (trace s') = [[]; [1%nat]; [3%nat]]
  /\ peak_live s' = 3%nat
  /\ ~ outputs_released_between_batches Demo.collab (Demo.cli "sbert") boot.
Proof.
  intros s'.
  assert (Hcalls : live_at_calls (trace s') = [[]; [1%nat]; [3%nat]])
    by (vm_compute; reflexivity).
  assert (Hpeak : peak_live s' = 3%nat) by (vm_compute; reflexivity).
  split; [vm_compute; reflexivity|]. split; [reflexivity|].
  split; [exact Hcalls|]. split; [exact Hpeak|].
  intros [_ Hbound]. fold s' in Hbound. rewrite Hpeak in Hbound.
  cbn in Hbound. lia.
Qed.

(** ** The length cap *)

Lemma slice_from_length {A} (l : list A) (i : Z) :
  0 <= i -> length (Py.slice_from l i) = (length l - Z.to_nat i)%nat.
Proof.
  intros Hi. unfold Py.slice_from, Py.slice, Py.clamp_index.
  destruct (Z.ltb_spec i 0); [lia|].
  destruct (Z.ltb_spec (Z.of_nat (length l)) 0); [lia|].
  rewrite length_take, length_drop. lia.
Qed.

Lemma padded_length_nonneg encoded : 0 <= padded_length encoded.
Proof. unfold padded_length. lia. Qed.

(** C10.  [run_generation] calls [model.generate] with
    [max_length = padded input length + 64]; with a model that honours
    [max_length], for every sample the generated continuation (the part of
    [generated_ids] after the padded input, which is what gets decoded) has
    at most 64 tokens, its [scores] have at most 64 entries, and so do the
    per-token log-likelihoods and entropies derived from them. *)
Theorem generation_is_capped C batch model_name rl ra um outs :
  honours_max_length C ->
  run_generation C batch model_name rl ra um = inr outs ->
  let encoded := tokenizer C model_name (map prompt_of batch) in
  (exists outputs,
      model_generate C model_name encoded (padded_length encoded + 64) rl ra = inr outputs)
  /\ forall it, In it outs ->
       (length (Py.slice_from (generated_ids it) (padded_length encoded)) <= 64)%nat
       /\ (forall sc, scores it = Some sc -> (length sc <= 64)%nat)
       /\ (forall log_prob entropy lik,
             spec_compute_likelihoods log_prob entropy it = inr lik ->
             (length (token_log_likelihoods lik) <= 64)%nat
             /\ (length (entropy_per_token lik) <= 64)%nat).
Proof.
  intros Hcontract Hrun encoded.
  destruct (run_generation_items C _ _ _ _ _ _ Hrun) as (outputs & Hgen & _ & Hitems).
  fold encoded in Hgen, Hitems.
  split; [exists outputs; exact Hgen|]. intros it Hin.
  pose proof (padded_length_nonneg encoded) as HL.
  destruct (Hcontract model_name (map prompt_of batch) (padded_length encoded + 64)
              rl ra outputs) as [Hseq Hsc]; [fold encoded; lia | exact Hgen |].
  fold encoded in Hseq, Hsc.
  apply list_elem_of_In, list_elem_of_lookup in Hin as [i Hi].
  destruct (Hitems i it Hi) as (_ & Hgid & _ & Hscores).
  assert (Hsteps : (length (default [] (scores it)) <= 64)%nat).
  { rewrite Hscores. destruct rl; cbn; lia. }
  split; [|split].
  - rewrite slice_from_length by exact HL.
    rewrite Forall_forall in Hseq.
    assert (Hrow : Z.of_nat (length (generated_ids it)) <= padded_length encoded + 64).
    { apply Hseq. apply list_elem_of_lookup. eauto. }
    lia.
  - intros sc Hsome. rewrite Hsome in Hsteps. exact Hsteps.
  - intros log_prob entropy lik [= <-]. cbn. now rewrite length_imap, length_map.
Qed.

Lemma demo_honours_max_length : honours_max_length Demo.collab.
Proof.
  intros model_name prompts max_length os oa outputs encoded HL [= <-].
  subst encoded. cbn [g_sequences g_scores tokenizer Demo.collab] in *.
  rewrite repeat_length.
  destruct prompts as [|p prompts].
  - split; [constructor | cbn in *; lia].
  - assert (Hpad : padded_length
                     (map (fun p0 : string => [Z.of_nat (String.length p0)]) (p :: prompts))
                   = 1) by reflexivity.
    rewrite Hpad in *. split; [|lia].
    rewrite map_map. apply Forall_fmap, Forall_true. intros q. cbn.
    rewrite repeat_length. lia.
Qed.

Lemma generation_is_capped_witness :
  Forall (fun it =>
            (length (Py.slice_from (generated_ids it) 1) <= 64)%nat
            /\ (forall sc, scores it = Some sc -> (length sc <= 64)%nat))
         (match run_generation Demo.collab Demo.samples "demo-model" true true None with
          | inr outs => outs
          | inl _ => []
          end).
Proof.
  apply Forall_forall. intros it Hin. apply list_elem_of_In in Hin.
  destruct (generation_is_capped Demo.collab Demo.samples "demo-model" true true None
              (match run_generation Demo.collab Demo.samples "demo-model" true true None with
               | inr outs => outs
               | inl _ => []
               end)
              demo_honours_max_length) as [_ Hcap];
    [vm_compute; reflexivity |].
  destruct (Hcap it Hin) as (Hcont & Hsc & _).
  split; [exact Hcont | exact Hsc].
Defined.

(** * Further properties of the two files *)

(** ** Degenerate batch sizes and datasets *)

Lemma batchify_negative {A} (data : list A) (B : Z) : B < 0 -> batchify data B = inr [].
Proof.
  intros HB. unfold batchify, Py.range, Py.range_len.
  destruct (Z.eqb_spec B 0); [lia|].
  destruct (Z.ltb_spec 0 B); [lia|].
  destruct (Z.ltb_spec (Z.of_nat (length data)) 0); [lia|]. reflexivity.
Qed.

Lemma batchify_nil {A} (B : Z) : B <> 0 -> batchify (@nil A) B = inr [].
Proof.
  intros HB. unfold batchify, Py.range, Py.range_len.
  destruct (Z.eqb_spec B 0); [contradiction|].
  destruct (Z.ltb_spec 0 B); reflexivity.
Qed.

(** [main] when [batchify] yields no batch. *)
Lemma main_no_batch C a s data :
  load_dataset C a = inr data ->
  batchify data (batch_size a) = inr [] ->
  main C a s = (inr tt, init_locals (enter_main s)).
Proof.
  intros Hload Hb. unfold main, bind, modify, lift. now rewrite Hload, Hb.
Qed.

(** X1.  A batch size of zero is fatal for every known dataset, empty or
    not: [main] raises the [ValueError] of [range] when the outer loop
    starts, before any generation call and any file operation; only the
    locals of [main] were initialised. *)
Theorem zero_batch_size_is_fatal C a s data :
  load_dataset C a = inr data ->
  batch_size a = 0 ->
  main C a s
  = (inl (ValueError "range() arg 3 must not be zero"), init_locals (enter_main s)).
Proof.
  intros Hload HB. unfold main, bind, modify, lift. rewrite Hload, HB. reflexivity.
Qed.

Lemma zero_batch_size_is_fatal_witness :
  main Demo.collab
       {| model := "demo-model"; uncertainty_method := "lastde";
          similarity_method := "sbert"; sbert_model := "all-MiniLM-L6-v2";
          batch_size := 0; dataset := "sampleqa" |} boot
  = (inl (ValueError "range() arg 3 must not be zero"), boot).
Proof.
  apply (zero_batch_size_is_fatal Demo.collab
           {| model := "demo-model"; uncertainty_method := "lastde";
              similarity_method := "sbert"; sbert_model := "all-MiniLM-L6-v2";
              batch_size := 0; dataset := "sampleqa" |} boot Demo.samples);
    reflexivity.
Defined.

(** X2.  With a negative batch size [main] returns normally without having
    processed anything, whatever the dataset holds: no generation call, no
    row, no file created or changed. *)
Theorem negative_batch_size_skips_the_dataset C a s data :
  load_dataset C a = inr data ->
  batch_size a < 0 ->
  main C a s = (inr tt, init_locals (enter_main s))
  /\ fs (init_locals (enter_main s)) = fs s
  /\ trace (init_locals (enter_main s)) = trace s.
Proof.
  intros Hload HB. split; [|split; reflexivity].
  apply (main_no_batch C a s data Hload). now apply batchify_negative.
Qed.

Lemma negative_batch_size_skips_the_dataset_witness :
  length Demo.samples = 5%nat
  /\ main Demo.collab
          {| model := "demo-model"; uncertainty_method := "lastde";
             similarity_method := "sbert"; sbert_model := "all-MiniLM-L6-v2";
             batch_size := -2; dataset := "sampleqa" |} boot
     = (inr tt, boot).
Proof.
  split; [reflexivity|].
  apply (negative_batch_size_skips_the_dataset Demo.collab
           {| model := "demo-model"; uncertainty_method := "lastde";
              similarity_method := "sbert"; sbert_model := "all-MiniLM-L6-v2";
              batch_size := -2; dataset := "sampleqa" |} boot Demo.samples);
    [reflexivity | reflexivity].
Defined.

(** X3.  On an empty dataset (and a non-zero batch size) [main] returns
    normally and touches nothing: generation is never called and the
    destination file is not even created. *)
Theorem empty_dataset_creates_no_file C a s :
  load_dataset C a = inr [] ->
  batch_size a <> 0 ->
  main C a s = (inr tt, init_locals (enter_main s))
  /\ fs (init_locals (enter_main s)) !! save_path a = fs s !! save_path a
  /\ gen_calls (trace (init_locals (enter_main s))) = gen_calls (trace s).
Proof.
  intros Hload HB. split; [|split; reflexivity].
  apply (main_no_batch C a s [] Hload). now apply batchify_nil.
Qed.

Lemma empty_dataset_creates_no_file_witness :
  main Demo.collab
       {| model := "demo-model"; uncertainty_method := "lastde";
          similarity_method := "sbert"; sbert_model := "all-MiniLM-L6-v2";
          batch_size := 2; dataset := "coqa" |} boot
  = (inr tt, boot)
  /\ fs boot !! "results_coqa.csv"%string = None.
Proof.
  destruct (empty_dataset_creates_no_file Demo.collab
              {| model := "demo-model"; uncertainty_method := "lastde";
                 similarity_method := "sbert"; sbert_model := "all-MiniLM-L6-v2";
                 batch_size := 2; dataset := "coqa" |} boot)
    as (Hmain & _ & _); [reflexivity | discriminate |].
  split; [exact Hmain | reflexivity].
Defined.

(** X4.  A run that completes issues exactly as many generation calls as
    there are batches: the number of samples divided by the batch size,
    rounded up. *)
Theorem generation_calls_of_a_complete_run C a s s' data :
  0 < batch_size a ->
  load_dataset C a = inr data ->
  main C a s = (inr tt, s') ->
  length (gen_calls (trace s'))
  = (length (gen_calls (trace s)) + batch_count (length data) (batch_size a))%nat.
Proof.
  intros HB Hload Hmain.
  pose proof (batchify_windows data (batch_size a) HB) as Hb.
  destruct (main_final C a s s' (inr tt) data _ Hload Hb Hmain) as (Hout & _ & Hext).
  rewrite (ext_gen _ _ _ _ _ Hext), length_app. f_equal.
  symmetry in Hout. apply outcome_ok in Hout.
  destruct (run_gens_prefix C a 0 (map (window (Z.to_nat (batch_size a)) data)
              (seq 0 (batch_count (length data) (batch_size a))))) as [_ Hall].
  unfold run_gens, batch_count in *. unfold Py.enumerate in *.
  rewrite length_map, (Hall Hout), length_map, length_seq. reflexivity.
Qed.

Lemma generation_calls_of_a_complete_run_witness :
  length (gen_calls (trace (snd (main Demo.collab (Demo.cli "sbert") boot)))) = 3%nat.
Proof.
  apply (generation_calls_of_a_complete_run Demo.collab (Demo.cli "sbert") boot
           (snd (main Demo.collab (Demo.cli "sbert") boot)) Demo.samples);
    [reflexivity | reflexivity |].
  transitivity (fst (main Demo.collab (Demo.cli "sbert") boot),
                snd (main Demo.collab (Demo.cli "sbert") boot));
    [apply surjective_pairing | f_equal; vm_compute; reflexivity].
Defined.

(** ** Aborted runs *)

Lemma run_batches_app C a b0 l1 l2 :
  run_error C a (Py.enumerate_from b0 l1) = None ->
  run_rows C a (Py.enumerate_from b0 (l1 ++ l2))
  = run_rows C a (Py.enumerate_from b0 l1)
    ++ run_rows C a (Py.enumerate_from (b0 + length l1) l2)
  /\ run_error C a (Py.enumerate_from b0 (l1 ++ l2))
     = run_error C a (Py.enumerate_from (b0 + length l1) l2).
Proof.
  unfold run_rows, run_error.
  revert b0; induction l1 as [|x l1 IH]; intros b0;
    cbn [app Py.enumerate_from run_batches length].
  - intros _. rewrite Nat.add_0_r. cbn. auto.
  - destruct (run_batch C a (b0, x)) as [rows [e|]]; cbn [fst snd]; [discriminate|].
    specialize (IH (S b0)).
    replace (b0 + S (length l1))%nat with (S b0 + length l1)%nat by lia.
    destruct (run_batches C a (Py.enumerate_from (S b0) l1)) as [[rows1 gens1] e1].
    destruct (run_batches C a (Py.enumerate_from (S b0) (l1 ++ l2))) as [[rows2 gens2] e2].
    cbn [fst snd] in *. intros He. destruct (IH He) as [-> ->].
    now rewrite app_assoc.
Qed.




(** X5.  A generation failure is fatal: when the batches before batch [k]
    went through and [run_generation] raises on batch [k], [main] ends with
    that very exception; the rows of the earlier batches, [k * batch_size]
    of them, are the ones persisted, and nothing of batch [k] is. *)
Theorem generation_failure_aborts_run C a s data batches k batch e :
  load_dataset C a = inr data ->
  batchify data (batch_size a) = inr batches ->
  batches !! k = Some batch ->
  run_error C a (Py.enumerate (take k batches)) = None ->
  run_generation C batch (model a) true (wants_attention a) None = inl e ->
  exists s',
    main C a s = (inl e, s')
    /\ results s' = run_rows C a (Py.enumerate (take k batches))
    /\ Z.of_nat (length (results s')) = Z.of_nat k * batch_size a
    /\ file_content s' (save_path a)
       = file_content s (save_path a) ++ records false (results s').
Proof.
  intros Hload Hbatches Hk Hbefore Hgen.
  pose proof (batchify_positive data (batch_size a) batches k batch Hbatches Hk) as HB.
  destruct (batchify_shape data (batch_size a) HB) as (bs & Hb & _ & Hfull & _).
  rewrite Hbatches in Hb. injection Hb as <-.
  assert (Hklt : (k < length batches)%nat) by (eapply lookup_lt_Some; eassumption).
  destruct (main_run C a s data batches Hload Hbatches) as (s' & Hmain & Hext).
  destruct (run_batches_app C a 0 (take k batches) (batch :: drop (S k) batches) Hbefore)
    as [Hrows Herr].
  rewrite (take_drop_middle batches k batch Hk) in Hrows, Herr.
  fold (Py.enumerate batches) in Hrows, Herr.
  assert (Hstop : run_batch C a ((0 + length (take k batches))%nat, batch) = ([], Some e))
    by (unfold run_batch; now rewrite Hgen).
  unfold run_rows at 3 in Hrows. unfold run_error at 2 in Herr.
  cbn [Py.enumerate_from run_batches] in Hrows, Herr. rewrite Hstop in Hrows, Herr.
  cbn [fst snd] in Hrows, Herr. rewrite app_nil_r in Hrows.
  rewrite Herr in Hmain. exists s'. split; [exact Hmain|].
  assert (Hres : results s' = run_rows C a (Py.enumerate (take k batches))).
  { rewrite (ext_results _ _ _ _ _ Hext). cbn. exact Hrows. }
  split; [exact Hres|]. split.
  - rewrite Hres. destruct (run_rows_length C a 0 (take k batches)) as [_ Hlen].
    fold (Py.enumerate (take k batches)) in Hlen.
    rewrite (Hlen Hbefore), (full_but_last_prefix _ _ k Hfull Hklt). nia.
  - rewrite (ext_file _ _ _ _ _ Hext), (ext_results _ _ _ _ _ Hext). reflexivity.
Qed.


Lemma generation_failure_aborts_run_witness :
  exists s',
    main Scenario.generation_fails (Demo.cli "sbert") boot
    = (inl (RuntimeError "CUDA out of memory"), s')
    /\ Z.of_nat (length (results s')) = 2
    /\ file_content s' "results_sampleqa.csv" = records false (results s').
Proof.
  destruct (generation_failure_aborts_run Scenario.generation_fails (Demo.cli "sbert") boot
              Demo.samples (map (window 2 Demo.samples) (seq 0 3))
              1 [Demo.qa "ccc"; Demo.qa "dddd"] (RuntimeError "CUDA out of memory"))
    as (s' & Hmain & _ & Hlen & Hfile);
    [vm_compute; reflexivity .. |].
  exists s'. auto.
Defined.


(** ** A missing ['score'] key *)

Lemma dict_getitem_missing d k : k ∉ dict_keys d -> dict_getitem d k = inl (KeyError k).
Proof.
  induction d as [|[k' v] d IH]; cbn; [reflexivity|].
  intros Hk. rewrite not_elem_of_cons in Hk. destruct Hk as [Hne Hk].
  destruct (String.eqb_spec k' k); [congruence | now apply IH].
Qed.

Lemma dict_getitem_present d k : k ∈ dict_keys d -> exists v, dict_getitem d k = inr v.
Proof.
  induction d as [|[k' v] d IH]; cbn; [intros H; inversion H|].
  intros Hk. destruct (String.eqb_spec k' k); [eauto|].
  apply IH. rewrite elem_of_cons in Hk. destruct Hk; [congruence | assumption].
Qed.

(** X7.  [main] reads [uncertainty['score']] when it builds the row, after
    all four scorers have run.  When they all succeed, the row is built if
    and only if the dict the uncertainty scorer returned has a ['score']
    key; when it has none, the scoring of the sample ends in
    [KeyError('score')]. *)
Theorem score_key_is_required C a batch_idx i smp output lik unc correctness :
  compute_likelihoods C output = inr lik ->
  compute_uncertainty_scores C lik (uncertainty_method a) = inr unc ->
  evaluate_response C smp output = inr correctness ->
  (wants_attention a = true ->
   exists v, compute_similarity C output "attention" = inr v) ->
  ("score"%string ∉ dict_keys unc ->
   sample_row C a batch_idx i smp output = inl (KeyError "score"))
  /\ ("score"%string ∈ dict_keys unc ->
      exists r,
        sample_row C a batch_idx i smp output = inr r
        /\ dict_getitem unc "score" = inr (RowDict.uncertainty r)
        /\ RowDict.correct r = correctness).
Proof.
  intros Hlik Hunc Hcor Hsim. unfold sample_row.
  rewrite Hlik. cbn [bindR]. rewrite Hunc. cbn [bindR]. rewrite Hcor. cbn [bindR].
  assert (Hs : exists v, (if wants_attention a
                          then compute_similarity C output "attention"
                          else inr PyNone) = inr v).
  { destruct (wants_attention a); [apply Hsim; reflexivity | eauto]. }
  destruct Hs as [v ->]. cbn [bindR]. split.
  - intros Hmiss. now rewrite (dict_getitem_missing _ _ Hmiss).
  - intros Hin. destruct (dict_getitem_present _ _ Hin) as [sc ->]. cbn [bindR].
    eexists. split; [reflexivity|]. cbn. auto.
Qed.

Lemma score_key_is_required_witness :
  sample_row Scenario.no_score_key (Demo.cli "sbert") 0 0 (Demo.qa "a") Demo.item0
  = inl (KeyError "score").
Proof.
  destruct (score_key_is_required Scenario.no_score_key (Demo.cli "sbert") 0 0
              (Demo.qa "a") Demo.item0
              {| token_log_likelihoods := []; entropy_per_token := [] |}
              [("method"%string, PyStr "lastde")] (PyBool true))
    as [Hmissing _]; [reflexivity | reflexivity | reflexivity | discriminate |].
  apply Hmissing. vm_compute. intros H.
  apply list_elem_of_In in H. destruct H as [H|[]]. discriminate H.
Defined.

(** ** Destinations *)

(** X8.  Running [main] again with the same configuration appends the same
    records a second time, header included, after those of the first run:
    the flag and the row list are reset at entry and nothing is read back
    from the destination, so the identifiers start again from zero. *)
Theorem rerun_appends_the_same_records C a s s1 s2 out1 out2 data batches :
  load_dataset C a = inr data ->
  batchify data (batch_size a) = inr batches ->
  main C a s = (out1, s1) ->
  main C a s1 = (out2, s2) ->
  out2 = out1
  /\ results s2 = results s1
  /\ file_content s2 (save_path a)
     = file_content s (save_path a)
       ++ records false (results s1) ++ records false (results s1).
Proof.
  intros Hload Hbatches Hrun1 Hrun2.
  destruct (main_final C a s s1 out1 data batches Hload Hbatches Hrun1) as (Ho1 & Hr1 & _).
  destruct (main_final C a s1 s2 out2 data batches Hload Hbatches Hrun2) as (Ho2 & Hr2 & _).
  split; [congruence|]. split; [congruence|].
  rewrite (main_file C a s1 s2 out2 data batches Hload Hbatches Hrun2).
  rewrite (main_file C a s s1 out1 data batches Hload Hbatches Hrun1).
  rewrite Hr2, <- Hr1. now rewrite app_assoc.
Qed.

Lemma rerun_appends_the_same_records_witness :
  let s1 := snd (main Demo.collab (Demo.cli "sbert") boot) in
  let s2 := snd (main Demo.collab (Demo.cli "sbert") s1) in
  file_content s2 "results_sampleqa.csv"
  = records false (results s1) ++ records false (results s1)
  /\ length (file_content s2 "results_sampleqa.csv") = 12%nat.
Proof.
  intros s1 s2.
  destruct (rerun_appends_the_same_records Demo.collab (Demo.cli "sbert") boot s1 s2
              (fst (main Demo.collab (Demo.cli "sbert") boot))
              (fst (main Demo.collab (Demo.cli "sbert") s1))
              Demo.samples (map (window 2 Demo.samples) (seq 0 3)))
    as (_ & _ & Hfile);
    [reflexivity | vm_compute; reflexivity
     | apply surjective_pairing | apply surjective_pairing |].
  split; [exact Hfile | vm_compute; reflexivity].
Defined.

Lemma string_length_app s1 s2 :
  String.length (s1 +:+ s2) = (String.length s1 + String.length s2)%nat.
Proof.
  induction s1 as [|c s1 IH]; [reflexivity|].
  change (String c s1 +:+ s2) with (String c (s1 +:+ s2)). cbn. now rewrite IH.
Qed.

Lemma string_app_inv_tail s1 s2 t : s1 +:+ t = s2 +:+ t -> s1 = s2.
Proof.
  revert s2; induction s1 as [|c s1 IH]; intros [|d s2] H.
  - reflexivity.
  - apply (f_equal String.length) in H. rewrite !string_length_app in H. cbn in H. lia.
  - apply (f_equal String.length) in H. rewrite !string_length_app in H. cbn in H. lia.
  - change (String c (s1 +:+ t) = String d (s2 +:+ t)) in H.
    injection H as -> H. f_equal. now apply IH.
Qed.

Lemma save_path_inj a a' : save_path a = save_path a' -> dataset a = dataset a'.
Proof.
  unfold save_path. intros H.
  assert (Hcut : forall t u, "results_" +:+ t = "results_" +:+ u -> t = u)
    by (intros t u Htu; now injection Htu).
  apply Hcut in H. now apply string_app_inv_tail in H.
Qed.

(** X9.  The destination is determined by the dataset name alone and
    different names give different files; a run on one dataset leaves the
    destination of every other dataset exactly as it was. *)
Theorem each_dataset_has_its_own_file C a a' s s' out data batches :
  load_dataset C a = inr data ->
  batchify data (batch_size a) = inr batches ->
  main C a s = (out, s') ->
  dataset a' <> dataset a ->
  save_path a' <> save_path a
  /\ fs s' !! save_path a' = fs s !! save_path a'.
Proof.
  intros Hload Hbatches Hmain Hne.
  assert (Hpath : save_path a' <> save_path a)
    by (intros H; apply Hne; now apply save_path_inj).
  split; [exact Hpath|].
  destruct (main_final C a s s' out data batches Hload Hbatches Hmain) as (_ & _ & Hext).
  apply (ext_other _ _ _ _ _ Hext _ Hpath).
Qed.

Lemma each_dataset_has_its_own_file_witness :
  fs (snd (main Demo.collab (Demo.cli "sbert") boot)) !! "results_sciq.csv"%string = None.
Proof.
  destruct (each_dataset_has_its_own_file Demo.collab (Demo.cli "sbert")
              {| model := "demo-model"; uncertainty_method := "lastde";
                 similarity_method := "sbert"; sbert_model := "all-MiniLM-L6-v2";
                 batch_size := 2; dataset := "sciq" |}
              boot (snd (main Demo.collab (Demo.cli "sbert") boot))
              (fst (main Demo.collab (Demo.cli "sbert") boot))
              Demo.samples (map (window 2 Demo.samples) (seq 0 3)))
    as [_ Hfile];
    [reflexivity | vm_compute; reflexivity | apply surjective_pairing | discriminate |].
  exact Hfile.
Defined.

(** ** Order of the rows *)

Lemma concat_lookup {A} (bs : list (list A)) k batch i x :
  bs !! k = Some batch -> batch !! i = Some x ->
  concat bs !! (length (concat (take k bs)) + i)%nat = Some x.
Proof.
  intros Hk Hi.
  assert (Hsplit : concat bs
                   = concat (take k bs) ++ batch ++ concat (drop (S k) bs)).
  { rewrite <- (take_drop_middle bs k batch Hk) at 1. now rewrite concat_app. }
  rewrite Hsplit. rewrite lookup_app_r by lia.
  replace (length (concat (take k bs)) + i - length (concat (take k bs)))%nat with i by lia.
  rewrite lookup_app_l by (eapply lookup_lt_Some; eassumption). exact Hi.
Qed.

(** X10.  The rows are emitted in dataset order, one per sample and none
    skipped: the [question] column of the rows of a run is the [question]
    of the first samples of the dataset, as many as there are rows (all of
    them when the run completes). *)
Theorem rows_follow_the_dataset C a s s' out data :
  0 < batch_size a ->
  load_dataset C a = inr data ->
  main C a s = (out, s') ->
  map RowDict.question (results s') = map question (take (length (results s')) data)
  /\ (out = inr tt -> map RowDict.question (results s') = map question data).
Proof.
  intros HB Hload Hmain.
  destruct (batchify_shape data (batch_size a) HB) as (batches & Hb & Hcat & Hfull & _).
  destruct (main_final C a s s' out data batches Hload Hb Hmain) as (Hout & Hres & _).
  pose proof (run_rows_length C a 0 batches) as [Hle Hall].
  fold (Py.enumerate batches) in Hle, Hall. rewrite Hcat, <- Hres in Hle, Hall.
  assert (Hprefix : map RowDict.question (results s')
                    = map question (take (length (results s')) data)).
  { apply list_eq. intros j. rewrite !list_lookup_fmap.
    destruct (results s' !! j) as [r|] eqn:Hj; cbn.
    - assert (Hlt : (j < length (results s'))%nat) by (eapply lookup_lt_Some; eassumption).
      rewrite lookup_take_lt by exact Hlt.
      rewrite Hres in Hj.
      apply run_rows_origin in Hj
        as (k & batch & i & outs & smp & output & Hk & -> & _ & Hs & _ & Hrow).
      apply sample_row_fields in Hrow as (_ & Hq & _).
      rewrite <- Hcat, (concat_lookup batches k batch i smp Hk Hs). cbn. now rewrite Hq.
    - apply lookup_ge_None in Hj. now rewrite lookup_take_ge by exact Hj. }
  split; [exact Hprefix|].
  intros ->. symmetry in Hout. apply outcome_ok in Hout.
  rewrite Hprefix, (Hall Hout). now rewrite take_ge by lia.
Qed.

Lemma rows_follow_the_dataset_witness :
  map RowDict.question (results (snd (main Demo.collab (Demo.cli "sbert") boot)))
  = ["a"; "bb"; "ccc"; "dddd"; "eeeee"]%string.
Proof.
  destruct (rows_follow_the_dataset Demo.collab (Demo.cli "sbert") boot
              (snd (main Demo.collab (Demo.cli "sbert") boot))
              (fst (main Demo.collab (Demo.cli "sbert") boot)) Demo.samples)
    as [_ Hall]; [reflexivity | reflexivity | apply surjective_pairing |].
  rewrite Hall; [reflexivity | vm_compute; reflexivity].
Defined.

(** ** How many generation outputs stay alive *)

Lemma remove_dups_length_le (l : list oid) : (length (remove_dups l) <= length l)%nat.
Proof.
  induction l as [|x l IH]; cbn; [lia|].
  destruct (decide_rel elem_of x l); cbn; lia.
Qed.

Lemma live_at_calls_app tr1 tr2 :
  live_at_calls (tr1 ++ tr2) = live_at_calls tr1 ++ live_at_calls tr2.
Proof. apply omap_app. Qed.

Lemma tame_refl n s : tame n s s.
Proof. split; exists []; rewrite app_nil_r; split; auto; constructor. Qed.

Lemma tame_trans n s s1 s2 : tame n s s1 -> tame n s1 s2 -> tame n s s2.
Proof.
  intros [(new1 & L1 & F1) (evs1 & T1 & C1)] [(new2 & L2 & F2) (evs2 & T2 & C2)]. split.
  - exists (new1 ++ new2). rewrite L2, L1, app_assoc. split; [reflexivity|].
    apply Forall_app; auto.
  - exists (evs1 ++ evs2). rewrite T2, T1, app_assoc. split; [reflexivity|].
    rewrite live_at_calls_app. apply Forall_app; auto.
Qed.

Lemma live_bound s l n :
  outputs_ref s = Some l -> (length l <= n)%nat -> (length (live s) <= S n)%nat.
Proof.
  intros Hl Hn. unfold live. rewrite Hl. cbn [default].
  etransitivity; [apply remove_dups_length_le|].
  rewrite length_app. destruct (output_ref s); cbn; lia.
Qed.

Lemma live_unbound s : outputs_ref s = None -> (length (live s) <= 1)%nat.
Proof.
  intros Hl. unfold live. rewrite Hl. cbn [default app].
  etransitivity; [apply remove_dups_length_le|]. destruct (output_ref s); cbn; lia.
Qed.

Section TameProofs.

Variable C : collaborators.
Variable a : args.

Lemma process_sample_tame batch_idx first x s l n :
  outputs_ref s = Some l -> (length l <= n)%nat ->
  tame (S n) s (snd (process_sample C a batch_idx first x s)).
Proof.
  intros Hl Hn. destruct x as [i [smp output]].
  assert (Hlive : (length (live (set_output_ref (Some (first + i)%nat) s)) <= S n)%nat)
    by (apply (live_bound _ l); [exact Hl | exact Hn]).
  unfold process_sample, bind, bind_output, log_live, modify, lift. simpl.
  destruct (sample_row C a batch_idx i smp output) as [e|r]; simpl.
  - split; simpl.
    + eexists. split; [reflexivity|]. constructor; [exact Hlive | constructor].
    + exists []. rewrite app_nil_r. split; [reflexivity | constructor].
  - unfold append_row, bind, open_append, write, close, emit, gets, modify. simpl.
    destruct (header_written s); simpl.
    all: split; simpl.
    all: try (eexists; split; [reflexivity|]; constructor; [exact Hlive | constructor]).
    all: eexists; split; [rewrite <- !app_assoc; reflexivity | constructor].
Qed.

Lemma sample_loop_tame batch_idx first xs s l n :
  outputs_ref s = Some l -> (length l <= n)%nat ->
  tame (S n) s (snd (for_each (process_sample C a batch_idx first) xs s)).
Proof.
  revert s; induction xs as [|x xs IH]; intros s Hl Hn; [apply tame_refl|].
  cbn [for_each]. unfold bind at 1.
  pose proof (process_sample_tame batch_idx first x s l n Hl Hn) as Hstep.
  pose proof (process_sample_refs C a batch_idx first x s) as [Ho _].
  destruct (process_sample C a batch_idx first x s) as [[e|[]] s1]; cbn [snd] in *;
    [exact Hstep|].
  eapply tame_trans; [exact Hstep|]. apply IH; [now rewrite Ho | exact Hn].
Qed.

Lemma process_batch_tame batch_idx batch s :
  outputs_ref s = None ->
  tame (S (length batch)) s (snd (process_batch C a (batch_idx, batch) s))
  /\ (fst (process_batch C a (batch_idx, batch) s) = inr tt ->
      outputs_ref (snd (process_batch C a (batch_idx, batch) s)) = None).
Proof.
  intros Hnone. unfold process_batch.
  unfold bind at 1 2 3. unfold gets at 1, emit at 1, modify at 1, lift.
  set (s1 := set_trace _ s).
  assert (H1 : tame (S (length batch)) s s1).
  { split; simpl.
    - exists []. rewrite app_nil_r. split; [reflexivity | constructor].
    - eexists. split; [reflexivity|]. cbn. constructor; [|constructor].
      now apply live_unbound. }
  destruct (run_generation C batch (model a) true (wants_attention a) None)
    as [e|outs] eqn:Hgen; [split; [exact H1 | discriminate]|].
  apply run_generation_length in Hgen.
  unfold bind at 1. unfold bind_outputs, bind, gets, modify, log_live, ret. cbn.
  set (s2 := set_live_log _ _).
  assert (Hl2 : outputs_ref s2 = Some (seq (next_oid s) (length outs))) by reflexivity.
  assert (Hn2 : (length (seq (next_oid s) (length outs)) <= length batch)%nat)
    by (rewrite length_seq; lia).
  assert (H2 : tame (S (length batch)) s1 s2).
  { split; simpl.
    - eexists. split; [reflexivity|]. constructor; [|constructor].
      etransitivity; [apply remove_dups_length_le|].
      rewrite length_app, length_seq. destruct (output_ref s); cbn; lia.
    - exists []. rewrite app_nil_r. split; [reflexivity | constructor]. }
  pose proof (sample_loop_tame batch_idx (next_oid s)
                (Py.enumerate (Py.zip batch outs)) s2 _ _ Hl2 Hn2) as H3.
  replace (next_oid s1) with (next_oid s) by reflexivity.
  destruct (for_each _ _ s2) as [[e|[]] s3]; cbn [fst snd] in *.
  - split; [|discriminate]. eapply tame_trans; [exact H1|].
    eapply tame_trans; [exact H2 | exact H3].
  - unfold del_outputs, bind, modify, log_live, emit. cbn. split; [|reflexivity].
    eapply tame_trans; [exact H1|]. eapply tame_trans; [exact H2|].
    eapply tame_trans; [exact H3|]. split; simpl.
    + eexists. split; [reflexivity|]. constructor; [|constructor].
      etransitivity; [apply remove_dups_length_le|].
      destruct (output_ref s3); cbn; lia.
    + eexists. split; [reflexivity|]. cbn. constructor.
Qed.

Lemma batch_loop_tame b bs s :
  Forall (fun batch : list sample => (length batch <= b)%nat) (map snd bs) ->
  outputs_ref s = None ->
  tame (S b) s (snd (for_each (process_batch C a) bs s)).
Proof.
  revert s; induction bs as [|[batch_idx batch] bs IH]; intros s Hall Hnone;
    [apply tame_refl|].
  cbn [map snd] in Hall. apply Forall_cons in Hall as [Hlen Hall].
  cbn [for_each]. unfold bind at 1.
  destruct (process_batch_tame batch_idx batch s Hnone) as [Hstep Hafter].
  assert (Hstep' : tame (S b) s (snd (process_batch C a (batch_idx, batch) s))).
  { destruct Hstep as [(new & L & F) Hc]. split; [|exact Hc].
    exists new. split; [exact L|]. eapply Forall_impl; [exact F|]. cbn. lia. }
  destruct (process_batch C a (batch_idx, batch) s) as [[e|[]] s1]; cbn [fst snd] in *;
    [exact Hstep'|].
  eapply tame_trans; [exact Hstep'|]. apply IH; [exact Hall | now apply Hafter].
Qed.

End TameProofs.

Lemma full_but_last_bound {A} (b : nat) (l : list (list A)) :
  full_but_last b l -> Forall (fun batch => (length batch <= b)%nat) l.
Proof.
  induction 1 as [|x Hx|x y l Hx _ IH]; [constructor | |].
  - constructor; [lia | constructor].
  - constructor; [lia | exact IH].
Qed.

(** X11.  What [del outputs, batch] achieves: during a run with batch size
    [B] there are never more than [B + 1] generation outputs alive, and
    every generation call is issued with at most one output (the last one
    of the batch before) still alive. *)
Theorem at_most_one_stale_output C a s s' out data :
  0 < batch_size a ->
  load_dataset C a = inr data ->
  main C a s = (out, s') ->
  exists new evs,
    live_log s' = live_log s ++ new
    /\ Forall (fun lv : list oid => Z.of_nat (length lv) <= batch_size a + 1) new
    /\ trace s' = trace s ++ evs
    /\ Forall (fun lv : list oid => (length lv <= 1)%nat) (live_at_calls evs).
Proof.
  intros HB Hload Hmain.
  destruct (batchify_shape data (batch_size a) HB) as (batches & Hb & _ & Hfull & _).
  assert (Hrun : snd (main C a s)
                 = snd (for_each (process_batch C a) (Py.enumerate batches)
                          (init_locals (enter_main s))))
    by (unfold main, bind, modify, lift; now rewrite Hload, Hb).
  rewrite Hmain in Hrun. cbn [snd] in Hrun.
  destruct (batch_loop_tame C a (Z.to_nat (batch_size a)) (Py.enumerate batches)
              (init_locals (enter_main s)))
    as [(new & L & F) (evs & T & Cs)].
  - unfold Py.enumerate. rewrite enumerate_from_snd. now apply full_but_last_bound.
  - reflexivity.
  - rewrite <- Hrun in L, T. exists new, evs.
    split; [exact L|]. split; [|split; [exact T | exact Cs]].
    eapply Forall_impl; [exact F|]. cbn. intros lv Hlv. lia.
Qed.

Lemma at_most_one_stale_output_witness :
  exists new evs,
    live_log (snd (main Demo.collab (Demo.cli "sbert") boot)) = new
    /\ Forall (fun lv : list oid => Z.of_nat (length lv) <= 3) new
    /\ trace (snd (main Demo.collab (Demo.cli "sbert") boot)) = evs
    /\ Forall (fun lv : list oid => (length lv <= 1)%nat) (live_at_calls evs).
Proof.
  apply (at_most_one_stale_output Demo.collab (Demo.cli "sbert") boot
           (snd (main Demo.collab (Demo.cli "sbert") boot))
           (fst (main Demo.collab (Demo.cli "sbert") boot)) Demo.samples);
    [reflexivity | reflexivity | apply surjective_pairing].
Defined.

(** ** The item loop of [run_generation] *)

Lemma mapR_result_map {A B} (g : B -> B) (f f' : A -> result B) l :
  (forall x, f' x = result_map g (f x)) ->
  mapR f' l = result_map (map g) (mapR f l).
Proof.
  intros H. induction l as [|x l IH]; [reflexivity|]. cbn [mapR].
  rewrite H, IH. destruct (f x); cbn; [reflexivity|]. now destruct (mapR f l).
Qed.

Lemma mapR_Forall {A B} (P : B -> Prop) (f : A -> result B) l ys :
  mapR f l = inr ys ->
  (forall i x y, l !! i = Some x -> f x = inr y -> P y) ->
  Forall P ys.
Proof.
  intros Hm HP. apply Forall_lookup. intros i y Hy.
  destruct (mapR_lookup _ _ _ _ _ Hm Hy) as (x & Hx & Hf). eauto.
Qed.




Section ItemLoopProofs.

Variable C : collaborators.

Lemma build_item_without_uncertainty rl ra um encoded outputs decoded prompts i smp :
  build_item C rl ra None encoded outputs decoded prompts i smp
  = result_map without_uncertainty
      (build_item C rl ra um encoded outputs decoded prompts i smp).
Proof.
  unfold build_item.
  destruct (Py.index encoded i); [reflexivity|].
  destruct (Py.index (g_sequences outputs) i); [reflexivity|].
  destruct (Py.index decoded i); [reflexivity|]. cbn [bindR].
  match goal with |- bindR ?x _ = _ => destruct x; [reflexivity|] end. cbn [bindR].
  destruct (Py.index prompts i); reflexivity.
Qed.

Lemma build_item_uncertainty rl ra um encoded outputs decoded prompts i smp it :
  build_item C rl ra um encoded outputs decoded prompts i smp = inr it ->
  has_uncertainty it = methods_given um.
Proof.
  unfold build_item.
  destruct (Py.index encoded i); [discriminate|].
  destruct (Py.index (g_sequences outputs) i); [discriminate|].
  destruct (Py.index decoded i); [discriminate|]. cbn [bindR].
  match goal with |- bindR ?x _ = _ -> _ => destruct x; [discriminate|] end. cbn [bindR].
  destruct (Py.index prompts i); [discriminate|]. cbn [bindR].
  intros [= <-]. unfold has_uncertainty. cbn.
  destruct um as [[|m ms]|]; cbn; [reflexivity| |reflexivity].
  now destruct (compute_uncertainty_scores_methods C _ _ _).
Qed.

Lemma log_attention_sources atts ts :
  mapR (log_attention_of C) atts = inr ts ->
  exists srcs,
    Forall2 (fun att src => attention_source att = Some src) atts srcs
    /\ ts = map (stabilize C) srcs.
Proof.
  revert ts; induction atts as [|att atts IH]; intros ts; cbn [mapR].
  - intros [= <-]. exists []. split; [constructor | reflexivity].
  - destruct (log_attention_of C att) as [|t] eqn:Hatt; [discriminate|]. cbn [bindR].
    destruct (mapR (log_attention_of C) atts) as [|ts'] eqn:Hts; [discriminate|].
    cbn [bindR]. intros [= <-].
    destruct (IH ts' eq_refl) as (srcs & Hsrcs & ->).
    destruct att as [src|[|src rest]]; cbn in Hatt; try discriminate;
      injection Hatt as <-; exists (src :: srcs); (split; [constructor; auto | reflexivity]).
Qed.


Lemma build_item_attentions rl ra um encoded outputs decoded prompts i smp it :
  build_item C rl ra um encoded outputs decoded prompts i smp = inr it ->
  match (if ra then g_attentions outputs else None) with
  | None => log_attentions it = None
  | Some atts =>
      exists srcs,
        Forall2 (fun att src => attention_source att = Some src) atts srcs
        /\ log_attentions it = Some (map (stabilize C) srcs)
  end.
Proof.
  unfold build_item.
  destruct (Py.index encoded i); [discriminate|].
  destruct (Py.index (g_sequences outputs) i); [discriminate|].
  destruct (Py.index decoded i); [discriminate|]. cbn [bindR].
  destruct ra; [destruct (g_attentions outputs) as [atts|]|].
  - destruct (mapR (log_attention_of C) atts) as [|ts] eqn:Hts; [discriminate|].
    cbn [bindR]. destruct (Py.index prompts i); [discriminate|]. cbn [bindR].
    intros [= <-]. cbn. destruct (log_attention_sources _ _ Hts) as (srcs & H & ->).
    eauto.
  - cbn [bindR]. destruct (Py.index prompts i); [discriminate|]. cbn [bindR].
    now intros [= <-].
  - cbn [bindR]. destruct (Py.index prompts i); [discriminate|]. cbn [bindR].
    now intros [= <-].
Qed.



Lemma build_item_log_attentions rl ra um encoded outputs decoded prompts i smp it :
  build_item C rl ra um encoded outputs decoded prompts i smp = inr it ->
  (if ra then
     match g_attentions outputs with
     | Some attentions => ts <-? mapR (log_attention_of C) attentions ; inr (Some ts)
     | None => inr None
     end
   else inr None) = inr (log_attentions it).
Proof.
  unfold build_item.
  destruct (Py.index encoded i); [discriminate|].
  destruct (Py.index (g_sequences outputs) i); [discriminate|].
  destruct (Py.index decoded i); [discriminate|]. cbn [bindR].
  match goal with |- bindR ?x _ = _ -> _ => destruct x; [discriminate|] end. cbn [bindR].
  destruct (Py.index prompts i); [discriminate|]. cbn [bindR].
  now intros [= <-].
Qed.

End ItemLoopProofs.

(** X12.  Asking [run_generation] for uncertainty methods never changes
    whether it raises nor any other key of its items: an exception of the
    uncertainty scorer is caught inside the item loop.  The items carry an
    ["uncertainty_scores"] key exactly when a non-empty list of methods was
    given. *)
Theorem uncertainty_failure_is_swallowed C batch model_name rl ra um :
  run_generation C batch model_name rl ra None
  = result_map (map without_uncertainty) (run_generation C batch model_name rl ra um)
  /\ match run_generation C batch model_name rl ra um with
     | inr outs => Forall (fun it => has_uncertainty it = methods_given um) outs
     | inl _ => True
     end.
Proof.
  split.
  - unfold run_generation.
    destruct (model_generate C model_name _ _ rl ra) as [e|outputs]; [reflexivity|].
    cbn [bindR]. apply mapR_result_map. intros [i smp].
    apply build_item_without_uncertainty.
  - destruct (run_generation C batch model_name rl ra um) as [e|outs] eqn:Hrun; [exact I|].
    unfold run_generation in Hrun.
    destruct (model_generate C model_name _ _ rl ra) as [e|outputs]; [discriminate|].
    cbn [bindR] in Hrun. eapply mapR_Forall; [exact Hrun|].
    intros i [j smp] it _ Hit. eapply build_item_uncertainty. exact Hit.
Qed.

(** X13.  The ["log_attentions"] of an item are not the sample's own: every
    item of the batch holds the same value, which is one transformed tensor
    per element of [outputs.attentions] (the tensor itself, or element [0]
    of a tuple), and [None] when attentions were not asked for or the
    output has none. *)
Theorem log_attentions_are_batch_wide C batch model_name rl ra um outs :
  run_generation C batch model_name rl ra um = inr outs ->
  exists outputs la,
    model_generate C model_name (tokenizer C model_name (map prompt_of batch))
      (padded_length (tokenizer C model_name (map prompt_of batch)) + 64) rl ra
    = inr outputs
    /\ Forall (fun it => log_attentions it = la) outs
    /\ (outs = []
        \/ match (if ra then g_attentions outputs else None) with
           | None => la = None
           | Some atts =>
               exists srcs,
                 Forall2 (fun att src => attention_source att = Some src) atts srcs
                 /\ la = Some (map (stabilize C) srcs)
           end).
Proof.
  intros Hrun. unfold run_generation in Hrun.
  destruct (model_generate C model_name _ _ rl ra) as [e|outputs]; [discriminate|].
  cbn [bindR] in Hrun. exists outputs.
  destruct outs as [|it0 outs'].
  - exists None. split; [reflexivity|]. split; [constructor | now left].
  - exists (log_attentions it0). split; [reflexivity|].
    destruct (mapR_lookup _ _ _ O it0 Hrun eq_refl) as ([j0 smp0] & _ & H0).
    split.
    + eapply mapR_Forall; [exact Hrun|]. intros i [j smp] it _ Hit.
      apply build_item_log_attentions in Hit, H0. rewrite H0 in Hit.
      now injection Hit.
    + right. apply build_item_attentions in H0.
      destruct (if ra then g_attentions outputs else None); [exact H0 | exact H0].
Qed.

Lemma log_attentions_are_batch_wide_witness :
  exists outputs la,
    model_generate Demo.collab "demo-model"
      (tokenizer Demo.collab "demo-model" (map prompt_of (take 2 Demo.samples)))
      (padded_length
         (tokenizer Demo.collab "demo-model" (map prompt_of (take 2 Demo.samples))) + 64)
      true true
    = inr outputs
    /\ Forall (fun it => log_attentions it = la)
         (match run_generation Demo.collab (take 2 Demo.samples) "demo-model" true true None
          with inr outs => outs | inl _ => [] end)
    /\ ((match run_generation Demo.collab (take 2 Demo.samples) "demo-model" true true None
         with inr outs => outs | inl _ => [] end) = []
        \/ match g_attentions outputs with
           | None => la = None
           | Some atts =>
               exists srcs,
                 Forall2 (fun att src => attention_source att = Some src) atts srcs
                 /\ la = Some (map (stabilize Demo.collab) srcs)
           end).
Proof.
  apply (log_attentions_are_batch_wide Demo.collab (take 2 Demo.samples) "demo-model"
           true true None). vm_compute. reflexivity.
Defined.


(** ** The model cache *)

Module ModelCacheProofs.

Import ModelCache.

Lemma model_loads_app name evs1 evs2 :
  model_loads name (evs1 ++ evs2) = (model_loads name evs1 + model_loads name evs2)%nat.
Proof. unfold model_loads. now rewrite List.filter_app, length_app. Qed.

Lemma model_loads_other name evs :
  Forall (fun ev => loaded_name ev <> name) evs -> model_loads name evs = O.
Proof.
  unfold model_loads. induction 1 as [|ev evs Hev _ IH]; [reflexivity|].
  cbn [List.filter]. destruct ev as [n|n]; [exact IH|].
  cbn in Hev. apply String.eqb_neq in Hev. rewrite Hev. exact IH.
Qed.

Section CacheProofs.

Variables Model Tokenizer : Type.
Variable tokenizer_from_pretrained : string -> result Tokenizer.
Variable model_from_pretrained : string -> result Model.

Local Abbreviation load := (load_model_and_tokenizer Model Tokenizer
                    tokenizer_from_pretrained model_from_pretrained).
Local Abbreviation run := (calls Model Tokenizer tokenizer_from_pretrained model_from_pretrained).
Local Abbreviation models := (_model_cache Model Tokenizer).
Local Abbreviation tokenizers := (_tokenizer_cache Model Tokenizer).
Local Abbreviation log_of := (loads Model Tokenizer).

(** A call for another name leaves the entries of [name] alone and issues
    no load for it. *)
Lemma load_other name n c :
  n <> name ->
  models (snd (load n c)) !! name = models c !! name
  /\ tokenizers (snd (load n c)) !! name = tokenizers c !! name
  /\ exists new,
       log_of (snd (load n c)) = log_of c ++ new
       /\ Forall (fun ev => loaded_name ev <> name) new.
Proof.
  intros Hne. unfold load_model_and_tokenizer.
  destruct (models c !! n) as [m0|].
  { cbn. repeat split. exists []. now rewrite app_nil_r. }
  destruct (tokenizer_from_pretrained n) as [e|t]; cbn.
  { repeat split. eexists. split; [reflexivity|]. now repeat constructor. }
  destruct (model_from_pretrained n) as [e|m]; cbn.
  { repeat split. eexists. split; [now rewrite <- app_assoc|]. now repeat constructor. }
  rewrite !lookup_insert_ne by exact Hne. repeat split.
  eexists. split; [now rewrite <- app_assoc|]. now repeat constructor.
Qed.

(** A call for a cached name changes nothing. *)
Lemma load_hit name m c :
  models c !! name = Some m -> snd (load name c) = c.
Proof. intros H. unfold load_model_and_tokenizer. now rewrite H. Qed.

Lemma run_cons n ns c :
  snd (run (n :: ns) c) = snd (run ns (snd (load n c))).
Proof. cbn [calls]. destruct (load n c) as [r c1]. cbn [snd]. now destruct (run ns c1). Qed.

Lemma run_cached name m names c :
  models c !! name = Some m ->
  models (snd (run names c)) !! name = Some m
  /\ tokenizers (snd (run names c)) !! name = tokenizers c !! name
  /\ exists new,
       log_of (snd (run names c)) = log_of c ++ new
       /\ Forall (fun ev => loaded_name ev <> name) new.
Proof.
  revert c; induction names as [|n ns IH]; intros c Hm.
  - cbn. repeat split; [exact Hm|]. exists []. now rewrite app_nil_r.
  - rewrite run_cons. destruct (decide (n = name)) as [->|Hne].
    + rewrite (load_hit name m c Hm). now apply IH.
    + destruct (load_other name n c Hne) as (Hm1 & Ht1 & new1 & Hl1 & Hf1).
      destruct (IH (snd (load n c))) as (Hm2 & Ht2 & new2 & Hl2 & Hf2);
        [now rewrite Hm1|].
      split; [exact Hm2|]. split; [now rewrite Ht2|].
      exists (new1 ++ new2). rewrite Hl2, Hl1, app_assoc. split; [reflexivity|].
      now apply Forall_app.
Qed.

(** A first call for a name that loads issues one model load and caches
    the name. *)
Lemma load_miss name m t c :
  models c !! name = None ->
  tokenizer_from_pretrained name = inr t ->
  model_from_pretrained name = inr m ->
  models (snd (load name c)) !! name = Some m
  /\ model_loads name (log_of (snd (load name c)))
     = S (model_loads name (log_of c)).
Proof.
  intros Hc Ht Hm. unfold load_model_and_tokenizer. rewrite Hc, Ht, Hm.
  cbn -[model_loads]. rewrite lookup_insert_eq. split; [reflexivity|].
  rewrite !model_loads_app. unfold model_loads at 2 3. cbn.
  rewrite String.eqb_refl. cbn. lia.
Qed.

Lemma run_uncached name m t names c :
  models c !! name = None ->
  tokenizer_from_pretrained name = inr t ->
  model_from_pretrained name = inr m ->
  model_loads name (log_of (snd (run names c)))
  = (model_loads name (log_of c) + (if bool_decide (name ∈ names) then 1 else 0))%nat.
Proof.
  intros Hc Ht Hm. revert c Hc; induction names as [|n ns IH]; intros c Hc.
  - cbn -[model_loads]. rewrite bool_decide_eq_false_2 by apply not_elem_of_nil. lia.
  - rewrite run_cons. destruct (decide (n = name)) as [->|Hne].
    + destruct (load_miss name m t c Hc Ht Hm) as (Hcached & Hcount).
      destruct (run_cached name m ns _ Hcached) as (_ & _ & new & Hl & Hf).
      rewrite Hl, model_loads_app, (model_loads_other _ _ Hf), Hcount.
      rewrite bool_decide_eq_true_2 by left. lia.
    + destruct (load_other name n c Hne) as (Hm1 & _ & new1 & Hl1 & Hf1).
      rewrite IH by (now rewrite Hm1).
      rewrite Hl1, model_loads_app, (model_loads_other _ _ Hf1).
      destruct (bool_decide (name ∈ ns)) eqn:Hin.
      * apply bool_decide_eq_true_1 in Hin.
        rewrite bool_decide_eq_true_2 by (now right). lia.
      * apply bool_decide_eq_false_1 in Hin.
        rewrite bool_decide_eq_false_2; [lia|].
        intros Hin'. apply elem_of_cons in Hin' as [->|Hin']; [now apply Hne | now apply Hin].
Qed.

Lemma load_faithful n c :
  faithful Model Tokenizer tokenizer_from_pretrained model_from_pretrained c ->
  fst (load n c) = uncached Model Tokenizer tokenizer_from_pretrained model_from_pretrained n
  /\ faithful Model Tokenizer tokenizer_from_pretrained model_from_pretrained
       (snd (load n c)).
Proof.
  intros Hf. unfold load_model_and_tokenizer, uncached.
  destruct (models c !! n) as [m0|] eqn:Hc.
  - destruct (Hf n m0 Hc) as (Hm & t & Ht & Htok). cbn.
    unfold cached, getitem. rewrite Hc, Ht, Htok, Hm. split; [reflexivity | exact Hf].
  - destruct (tokenizer_from_pretrained n) as [e|t] eqn:Htok; cbn; [split; [reflexivity | exact Hf]|].
    destruct (model_from_pretrained n) as [e|m] eqn:Hm; cbn; [split; [reflexivity | exact Hf]|].
    unfold cached, getitem. cbn. rewrite !lookup_insert_eq. cbn. split; [reflexivity|].
    intros k m' Hk. cbn in Hk |- *. destruct (decide (n = k)) as [<-|Hne].
    + rewrite lookup_insert_eq in Hk. injection Hk as <-.
      split; [exact Hm|]. exists t. now rewrite lookup_insert_eq.
    + rewrite lookup_insert_ne in Hk by exact Hne.
      destruct (Hf k m' Hk) as (Hm' & t' & Ht' & Htok').
      split; [exact Hm'|]. exists t'. now rewrite lookup_insert_ne.
Qed.

Lemma run_faithful names c :
  faithful Model Tokenizer tokenizer_from_pretrained model_from_pretrained c ->
  fst (run names c)
  = map (uncached Model Tokenizer tokenizer_from_pretrained model_from_pretrained) names.
Proof.
  revert c; induction names as [|n ns IH]; intros c Hf; [reflexivity|].
  cbn [calls map]. destruct (load_faithful n c Hf) as (Hr & Hf1).
  destruct (load n c) as [r c1]. cbn [fst snd] in *.
  specialize (IH c1 Hf1). destruct (run ns c1) as [rs c2]. cbn [fst] in *.
  now rewrite Hr, IH.
Qed.

End CacheProofs.

End ModelCacheProofs.

(** X15.  Once a model is cached, no later call of
    [load_model_and_tokenizer], for whatever names and whether it raises
    or not, replaces the cached model or its tokenizer or issues another
    [from_pretrained] for that name. *)
Theorem cached_model_is_never_reloaded
    (Model Tokenizer : Type) (tok : string -> result Tokenizer)
    (mdl : string -> result Model) (name : string) (m : Model)
    (names : list string) (c : ModelCache.caches Model Tokenizer) :
  ModelCache._model_cache _ _ c !! name = Some m ->
  let c' := snd (ModelCache.calls _ _ tok mdl names c) in
  ModelCache._model_cache _ _ c' !! name = Some m
  /\ ModelCache._tokenizer_cache _ _ c' !! name = ModelCache._tokenizer_cache _ _ c !! name
  /\ exists new,
       ModelCache.loads _ _ c' = ModelCache.loads _ _ c ++ new
       /\ Forall (fun ev => ModelCache.loaded_name ev <> name) new.
Proof. intros Hm. now apply ModelCacheProofs.run_cached. Qed.

Lemma cached_model_is_never_reloaded_witness :
  let c := snd (ModelCache.load_model_and_tokenizer string string
                  ModelCache.hub_tokenizer ModelCache.hub_model "gpt2"
                  (ModelCache.fresh string string)) in
  let c' := snd (ModelCache.calls string string ModelCache.hub_tokenizer
                   ModelCache.hub_model ["opt"; "gpt2"; "missing"; "gpt2"]%string c) in
  ModelCache._model_cache _ _ c' !! "gpt2"%string = Some "weights of gpt2"%string
  /\ ModelCache._tokenizer_cache _ _ c' !! "gpt2"%string
     = ModelCache._tokenizer_cache _ _ c !! "gpt2"%string
  /\ exists new,
       ModelCache.loads _ _ c' = ModelCache.loads _ _ c ++ new
       /\ Forall (fun ev => ModelCache.loaded_name ev <> "gpt2"%string) new.
Proof.
  intros c c'.
  apply (cached_model_is_never_reloaded string string ModelCache.hub_tokenizer
           ModelCache.hub_model "gpt2" "weights of gpt2"
           ["opt"; "gpt2"; "missing"; "gpt2"]%string c).
  vm_compute. reflexivity.
Defined.

(** X16.  A call of [load_model_and_tokenizer] that raises leaves both
    caches as they were: nothing is stored for a name whose tokenizer or
    model failed to load, so the next call for it tries again. *)
Theorem failed_load_stores_nothing
    (Model Tokenizer : Type) (tok : string -> result Tokenizer)
    (mdl : string -> result Model) (name : string) (e : exn)
    (c c' : ModelCache.caches Model Tokenizer) :
  ModelCache.load_model_and_tokenizer _ _ tok mdl name c = (inl e, c') ->
  ModelCache._model_cache _ _ c' = ModelCache._model_cache _ _ c
  /\ ModelCache._tokenizer_cache _ _ c' = ModelCache._tokenizer_cache _ _ c.
Proof.
  unfold ModelCache.load_model_and_tokenizer.
  destruct (ModelCache._model_cache _ _ c !! name) as [m0|].
  { intros [= _ <-]. auto. }
  destruct (tok name) as [e1|t].
  { intros [= _ <-]. auto. }
  destruct (mdl name) as [e2|m].
  { intros [= _ <-]. auto. }
  unfold ModelCache.cached, ModelCache.getitem. cbn.
  rewrite !lookup_insert_eq. cbn. discriminate.
Qed.

Lemma failed_load_stores_nothing_witness :
  let c := snd (ModelCache.load_model_and_tokenizer string string
                  ModelCache.hub_tokenizer ModelCache.hub_model "gpt2"
                  (ModelCache.fresh string string)) in
  let c' := snd (ModelCache.load_model_and_tokenizer string string
                   ModelCache.hub_tokenizer ModelCache.hub_model "broken" c) in
  ModelCache._model_cache _ _ c' = ModelCache._model_cache _ _ c
  /\ ModelCache._tokenizer_cache _ _ c' = ModelCache._tokenizer_cache _ _ c.
Proof.
  intros c c'.
  apply (failed_load_stores_nothing string string ModelCache.hub_tokenizer
           ModelCache.hub_model "broken" (RuntimeError "no weights") c c').
  vm_compute. reflexivity.
Defined.

(** X17.  The cache is transparent: in a process that starts with empty
    caches, every call of [load_model_and_tokenizer] ends as the two
    [from_pretrained] calls for its name would, with their exception or
    with the model and tokenizer of that name.  In particular the lookups
    in the two dicts never raise [KeyError]. *)
Theorem model_cache_is_transparent
    (Model Tokenizer : Type) (tok : string -> result Tokenizer)
    (mdl : string -> result Model) (names : list string) :
  fst (ModelCache.calls _ _ tok mdl names (ModelCache.fresh Model Tokenizer))
  = map (ModelCache.uncached _ _ tok mdl) names.
Proof.
  apply ModelCacheProofs.run_faithful. intros k m Hk. cbn in Hk.
  now rewrite lookup_empty in Hk.
Qed.

(** X18.  A model that loads is loaded once: in a process that starts with
    empty caches, however often and in whatever order names are asked for,
    [from_pretrained] is issued exactly once for the model of each name
    that was asked for and loads, and never for a name not asked for. *)
Theorem each_model_is_loaded_once
    (Model Tokenizer : Type) (tok : string -> result Tokenizer)
    (mdl : string -> result Model) (name : string) (m : Model) (t : Tokenizer)
    (names : list string) :
  tok name = inr t ->
  mdl name = inr m ->
  ModelCache.model_loads name
    (ModelCache.loads _ _
       (snd (ModelCache.calls _ _ tok mdl names (ModelCache.fresh Model Tokenizer))))
  = if bool_decide (name ∈ names) then 1%nat else 0%nat.
Proof.
  intros Ht Hm.
  rewrite (ModelCacheProofs.run_uncached _ _ tok mdl name m t names); auto.
Qed.

Lemma each_model_is_loaded_once_witness :
  ModelCache.model_loads "gpt2"
    (ModelCache.loads _ _
       (snd (ModelCache.calls _ _ ModelCache.hub_tokenizer ModelCache.hub_model
               ["gpt2"; "broken"; "gpt2"; "broken"; "gpt2"]%string
               (ModelCache.fresh string string))))
  = 1%nat.
Proof.
  apply (each_model_is_loaded_once string string ModelCache.hub_tokenizer
           ModelCache.hub_model "gpt2" "weights of gpt2" "tokenizer of gpt2"
           ["gpt2"; "broken"; "gpt2"; "broken"; "gpt2"]%string);
    reflexivity.
Defined.

(** ** The command line *)

Lemma store_keeps_choice o a a' :
  Cli.store o a = Some a' ->
  existsb (String.eqb (dataset a)) Cli.dataset_choices = true ->
  existsb (String.eqb (dataset a')) Cli.dataset_choices = true.
Proof.
  destruct o; cbn [Cli.store]; try (intros [= <-]; cbn [dataset]; auto; fail).
  destruct (existsb (String.eqb v) Cli.dataset_choices) eqn:Hv; [|discriminate].
  intros [= <-] _. exact Hv.
Qed.

Lemma store_all_keeps_choice occs a a' :
  Cli.store_all occs a = Some a' ->
  existsb (String.eqb (dataset a)) Cli.dataset_choices = true ->
  existsb (String.eqb (dataset a')) Cli.dataset_choices = true.
Proof.
  revert a; induction occs as [|o occs IH]; intros a; cbn [Cli.store_all].
  - now intros [= <-].
  - destruct (Cli.store o a) as [a1|] eqn:Ho; [|discriminate].
    intros Hall Ha. apply (IH a1 Hall). eapply store_keeps_choice; eauto.
Qed.

(** X19.  The [else] branch of the dataset chain cannot be reached from the
    command line: whatever options are given, a command line the parser
    accepts names one of the four datasets (the default is one of the
    choices), so loading does not raise "Unsupported dataset". *)
Theorem command_line_dataset_is_supported C MODEL_NAME occs a :
  Cli.parse_args MODEL_NAME occs = Some a ->
  known_dataset (dataset a) /\ exists data, load_dataset C a = inr data.
Proof.
  intros Hparse. unfold Cli.parse_args in Hparse.
  apply store_all_keeps_choice in Hparse; [|reflexivity].
  cbn in Hparse. unfold known_dataset, load_dataset.
  destruct (String.eqb_spec (dataset a) "sciq") as [->|_];
    [split; [auto | cbn; eauto]|].
  destruct (String.eqb_spec (dataset a) "coqa") as [->|_];
    [split; [auto | cbn; eauto]|].
  destruct (String.eqb_spec (dataset a) "triviaqa") as [->|_];
    [split; [auto | cbn; eauto]|].
  destruct (String.eqb_spec (dataset a) "sampleqa") as [->|_];
    [split; [auto | cbn; eauto]|].
  discriminate.
Qed.

Lemma command_line_dataset_is_supported_witness :
  known_dataset "coqa"
  /\ exists data,
       load_dataset Demo.collab
         {| model := "demo-model"; uncertainty_method := "lastde";
            similarity_method := "attention"; sbert_model := "all-MiniLM-L6-v2";
            batch_size := 0; dataset := "coqa" |} = inr data.
Proof.
  apply (command_line_dataset_is_supported Demo.collab "demo-model"
           [Cli.OptDataset "triviaqa"; Cli.OptBatchSize 0;
            Cli.OptSimilarityMethod "attention"; Cli.OptDataset "coqa"]
           {| model := "demo-model"; uncertainty_method := "lastde";
              similarity_method := "attention"; sbert_model := "all-MiniLM-L6-v2";
              batch_size := 0; dataset := "coqa" |}).
  reflexivity.
Defined.

(** ** Streaming *)

Lemma row_writes_app tr1 tr2 : row_writes (tr1 ++ tr2) = (row_writes tr1 + row_writes tr2)%nat.
Proof. unfold row_writes. now rewrite List.filter_app, length_app. Qed.

Lemma row_writes_io tr : row_writes (io_events tr) = row_writes tr.
Proof.
  unfold row_writes, io_events. induction tr as [|ev tr IH]; [reflexivity|].
  destruct ev as [batch flag lv|path|[fields|r]|path|]; cbn; auto.
Qed.

Lemma row_writes_transactions path hw rows :
  row_writes (transactions path hw rows) = length rows.
Proof.
  revert hw; induction rows as [|r rows IH]; intros hw; [reflexivity|].
  cbn [transactions]. rewrite row_writes_app, IH.
  unfold transaction. destruct hw; reflexivity.
Qed.

Lemma full_but_last_tail {A} (b : nat) (x : list A) l :
  full_but_last b (x :: l) -> full_but_last b l.
Proof. inversion 1; subst; [constructor | assumption]. Qed.

Section StreamProofs.

Variable C : collaborators.
Variable a : args.

(** What one batch adds to the trace: its generation call, then no other
    generation call and one row write per row it got to. *)
Lemma process_batch_events x s :
  exists rest,
    trace (snd (process_batch C a x s))
    = trace s ++ EvGenerate (snd x) (wants_attention a) (live s) :: rest
    /\ gen_calls rest = []
    /\ row_writes rest = length (fst (run_batch C a x)).
Proof.
  destruct (process_batch_trace C a x s) as (rest & Htr).
  destruct (process_batch_run C a x s) as (s' & Hrun & Hext).
  rewrite Hrun in Htr. cbn [snd] in Htr. rewrite Hrun. cbn [snd].
  exists rest. split; [exact Htr|]. split.
  - pose proof (ext_gen _ _ _ _ _ Hext) as Hg.
    rewrite Htr, gen_calls_app in Hg. apply app_inv_head in Hg.
    cbn in Hg. now injection Hg.
  - pose proof (ext_io _ _ _ _ _ Hext) as Hio.
    rewrite Htr, io_events_app in Hio. apply app_inv_head in Hio.
    change (io_events (EvGenerate (snd x) (wants_attention a) (live s) :: rest))
      with (io_events rest) in Hio.
    now rewrite <- (row_writes_io rest), Hio, row_writes_transactions.
Qed.

Lemma batch_loop_flushed (b : nat) bs s :
  full_but_last b (map snd bs) ->
  exists evs,
    trace (snd (for_each (process_batch C a) bs s)) = trace s ++ evs
    /\ forall pre batch flag lv post,
         evs = pre ++ EvGenerate batch flag lv :: post ->
         row_writes pre = (b * length (gen_calls pre))%nat.
Proof.
  revert s; induction bs as [|x bs IH]; intros s Hfull.
  - exists []. split; [cbn; now rewrite app_nil_r|].
    intros pre batch flag lv post H. now destruct pre.
  - cbn [for_each]. unfold bind at 1.
    destruct (process_batch_events x s) as (rest & Htr & Hg & Hw).
    destruct (process_batch_run C a x s) as (s1 & Hrun & _).
    rewrite Hrun in Htr |- *. cbn [snd] in Htr.
    assert (Hhead : forall pre batch flag lv post,
              EvGenerate (snd x) (wants_attention a) (live s) :: rest
              = pre ++ EvGenerate batch flag lv :: post -> pre = []).
    { intros pre batch flag lv post H. destruct pre as [|ev pre]; [reflexivity|].
      exfalso. injection H as _ H. rewrite H, gen_calls_app in Hg.
      cbn in Hg. now destruct (gen_calls pre). }
    destruct (snd (run_batch C a x)) as [e|] eqn:Herr; cbn [outcome].
    + cbn [snd]. eexists. split; [exact Htr|].
      intros pre batch flag lv post H. rewrite (Hhead _ _ _ _ _ H). cbn. lia.
    + assert (Hfull' : full_but_last b (map snd bs))
        by (cbn [map] in Hfull; now apply full_but_last_tail in Hfull).
      destruct (IH s1 Hfull') as (evs2 & Htr2 & Hfl2).
      exists ((EvGenerate (snd x) (wants_attention a) (live s) :: rest) ++ evs2).
      split; [now rewrite Htr2, Htr, app_assoc|].
      intros pre batch flag lv post H.
      (* the call is this batch's, or one of a later batch *)
      destruct pre as [|ev pre]; [cbn; lia|].
      cbn [app] in H. injection H as <- H.
      assert (Hsplit : exists pre2, pre = rest ++ pre2
                                    /\ evs2 = pre2 ++ EvGenerate batch flag lv :: post).
      { clear -H Hg. revert pre H. induction rest as [|ev rest IHr]; intros pre H.
        - exists pre. auto.
        - destruct pre as [|ev' pre].
          + cbn in H. injection H as -> _. cbn in Hg. discriminate Hg.
          + cbn in H. injection H as <- H.
            assert (Hg' : gen_calls rest = [])
              by (cbn in Hg; destruct (gen_call ev); [discriminate | exact Hg]).
            destruct (IHr Hg' pre H) as (pre2 & -> & ->). exists pre2. auto. }
      destruct Hsplit as (pre2 & -> & Hevs2).
      specialize (Hfl2 _ _ _ _ _ Hevs2).
      assert (Hlen : length (fst (run_batch C a x)) = b).
      { destruct x as [batch_idx bt].
        destruct (run_batch_length C a batch_idx bt) as [_ Hall].
        rewrite (Hall Herr). cbn [map snd] in Hfull.
        destruct bs as [|y bs'].
        - cbn in Htr2. exfalso.
          assert (evs2 = []) by (apply (app_inv_head (trace s1)); now rewrite app_nil_r).
          subst evs2. now destruct pre2.
        - inversion Hfull; subst. reflexivity. }
      change (EvGenerate (snd x) (wants_attention a) (live s) :: rest ++ pre2)
        with ([EvGenerate (snd x) (wants_attention a) (live s)] ++ rest ++ pre2).
      rewrite !row_writes_app, !gen_calls_app, !length_app, Hg, Hw, Hlen, Hfl2.
      cbn. lia.
Qed.

End StreamProofs.

(** X20.  Rows are streamed to the destination batch by batch: whenever a
    generation call is issued, the rows of all batches before it have been
    written, [batch_size] rows for each earlier call; a batch is never
    generated while rows of an earlier one are pending. *)
Theorem rows_are_flushed_before_the_next_batch C a s s' out data :
  0 < batch_size a ->
  load_dataset C a = inr data ->
  main C a s = (out, s') ->
  exists evs,
    trace s' = trace s ++ evs
    /\ forall pre batch flag lv post,
         evs = pre ++ EvGenerate batch flag lv :: post ->
         Z.of_nat (row_writes pre) = batch_size a * Z.of_nat (length (gen_calls pre)).
Proof.
  intros HB Hload Hmain.
  destruct (batchify_shape data (batch_size a) HB) as (batches & Hb & _ & Hfull & _).
  assert (Hrun : snd (main C a s)
                 = snd (for_each (process_batch C a) (Py.enumerate batches)
                          (init_locals (enter_main s))))
    by (unfold main, bind, modify, lift; now rewrite Hload, Hb).
  rewrite Hmain in Hrun. cbn [snd] in Hrun.
  destruct (batch_loop_flushed C a (Z.to_nat (batch_size a)) (Py.enumerate batches)
              (init_locals (enter_main s))) as (evs & Htr & Hfl).
  - unfold Py.enumerate. now rewrite enumerate_from_snd.
  - rewrite <- Hrun in Htr. exists evs. split; [exact Htr|].
    intros pre batch flag lv post H. rewrite (Hfl _ _ _ _ _ H). lia.
Qed.

Lemma rows_are_flushed_before_the_next_batch_witness :
  exists evs,
    trace (snd (main Demo.collab (Demo.cli "sbert") boot)) = evs
    /\ forall pre batch flag lv post,
         evs = pre ++ EvGenerate batch flag lv :: post ->
         Z.of_nat (row_writes pre) = 2 * Z.of_nat (length (gen_calls pre)).
Proof.
  apply (rows_are_flushed_before_the_next_batch Demo.collab (Demo.cli "sbert") boot
           (snd (main Demo.collab (Demo.cli "sbert") boot))
           (fst (main Demo.collab (Demo.cli "sbert") boot)) Demo.samples);
    [reflexivity | reflexivity | apply surjective_pairing].
Defined.

(** X21.  The [--sbert_model] option is parsed and never read: [main] runs
    the same, to the same outcome and final state, whatever its value. *)
Theorem sbert_model_is_ignored C a m s :
  main C (set_sbert_model m a) s = main C a s.
Proof. apply main_congr; reflexivity. Qed.

(** ** [batchify] on its own *)

(** X22.  For a positive batch size [batchify] cuts the data into
    consecutive pieces and loses nothing: the batches concatenate back to
    the data, there are as many as the length divided by the batch size,
    rounded up, every batch but the last is full and the last one is not
    empty. *)
Theorem batchify_partitions_the_data {A} (data : list A) (B : Z) :
  0 < B ->
  exists batches,
    batchify data B = inr batches
    /\ concat batches = data
    /\ length batches = batch_count (length data) B
    /\ full_but_last (Z.to_nat B) batches.
Proof.
  intros HB. destruct (batchify_shape data B HB) as (batches & Hb & Hcat & Hfull & _).
  exists batches. repeat (split; [assumption|]). split; [|assumption].
  rewrite (batchify_windows data B HB) in Hb. injection Hb as <-.
  unfold batch_count. now rewrite length_map, length_seq.
Qed.

Lemma batchify_partitions_the_data_witness :
  exists batches,
    batchify [1; 2; 3; 4; 5; 6; 7] 3 = inr batches
    /\ concat batches = [1; 2; 3; 4; 5; 6; 7]
    /\ length batches = batch_count 7 3
    /\ full_but_last 3 batches.
Proof. apply (batchify_partitions_the_data [1; 2; 3; 4; 5; 6; 7] 3). lia. Defined.
